(** * silx.io.url : the [DataUrl] resource locator

    A shallow embedding of [src/silx/io/url.py] and the properties of its
    parser, validity check, serializer and accessors.

    Conventions of the embedding.
    - A Python [str] is a [string]; the character [ascii_of_nat n] stands for
      the code point [n] (the range 0..255).
    - Python [None] is [None] of an [option]; an attribute that may hold
      [None] has an [option] type.
    - A call that may raise returns a [result]: [Ok v] or [Raise e].
    - [self] is threaded explicitly: a method that assigns attributes takes
      the object and returns the updated one. *)

From Stdlib Require Import ZArith List Bool Ascii String Lia DecimalString.
From Stdlib Require Import DecimalPos Permutation.
Import ListNotations.

Open Scope string_scope.

(** ** The Python built-ins the module relies on *)

Module Py.

Inductive exn : Type :=
| TypeError
| ValueError
| IndexError
| AssertionError.

Inductive result (A : Type) : Type :=
| Ok (a : A)
| Raise (e : exn).

Arguments Ok {A} a.
Arguments Raise {A} e.

Definition bind {A B : Type} (m : result A) (k : A -> result B) : result B :=
  match m with
  | Ok a => k a
  | Raise e => Raise e
  end.

(** [try: body; except exc: handler] *)
Definition try_except {A : Type} (body : result A) (exc : exn) (handler : result A)
  : result A :=
  match body with
  | Ok a => Ok a
  | Raise e =>
      match e, exc with
      | TypeError, TypeError | ValueError, ValueError
      | IndexError, IndexError | AssertionError, AssertionError => handler
      | _, _ => Raise e
      end
  end.

(** [assert(b)] *)
Definition assert (b : bool) : result unit :=
  if b then Ok tt else Raise AssertionError.

(** [len(s)] for a [str] *)
Definition len (s : string) : nat := String.length s.

(** [len(x)] where [x] may be [None]: [len(None)] is a [TypeError]. *)
Definition len_opt (x : option string) : result nat :=
  match x with
  | Some s => Ok (len s)
  | None => Raise TypeError
  end.

(** [s[i]] for a non-negative index *)
Definition getitem (s : string) (i : nat) : result ascii :=
  match String.get i s with
  | Some c => Ok c
  | None => Raise IndexError
  end.

(** [l[i]] on a list, for a non-negative index *)
Definition list_getitem {A : Type} (l : list A) (i : nat) : result A :=
  match nth_error l i with
  | Some a => Ok a
  | None => Raise IndexError
  end.

(** [s.startswith(p)] *)
Definition startswith (s p : string) : bool := String.prefix p s.

(** [s[n:]] *)
Fixpoint slice_from (n : nat) (s : string) : string :=
  match n, s with
  | O, _ => s
  | S _, EmptyString => EmptyString
  | S n', String _ s' => slice_from n' s'
  end.

(** [s[:n]] *)
Fixpoint slice_to (n : nat) (s : string) : string :=
  match n, s with
  | O, _ => EmptyString
  | S _, EmptyString => EmptyString
  | S n', String c s' => String c (slice_to n' s')
  end.

(** [s.find(sep)]: index of the leftmost occurrence, [None] for Python's -1 *)
Fixpoint find (sep s : string) : option nat :=
  if String.prefix sep s then Some O
  else match s with
       | EmptyString => None
       | String _ s' => option_map S (find sep s')
       end.

(** At most [n] splits at the leftmost occurrences of [sep]. *)
Fixpoint split_n (n : nat) (sep s : string) : list string :=
  match n with
  | O => [s]
  | S n' =>
      match find sep s with
      | None => [s]
      | Some i => slice_to i s :: split_n n' sep (slice_from (i + len sep) s)
      end
  end.

(** [s.split(sep, maxsplit)] for a non-empty [sep]; [maxsplit = None] is the
    call without the second argument (no limit: a string of length [n] has
    at most [n] occurrences of a non-empty separator). *)
Definition split (s sep : string) (maxsplit : option nat) : list string :=
  match maxsplit with
  | Some n => split_n n sep s
  | None => split_n (len s) sep s
  end.

(** [sep.join(l)] *)
Fixpoint join (sep : string) (l : list string) : string :=
  match l with
  | [] => EmptyString
  | [x] => x
  | x :: l' => x ++ sep ++ join sep l'
  end.

(** [str(z)] for an [int] *)
Definition str (z : Z) : string := NilZero.string_of_int (Z.to_int z).

(** White space as [int] sees it: tab, line feed, vertical tab, form feed,
    carriage return, space, and the code points 0x85 and 0xA0. *)
Definition isspace (c : ascii) : bool :=
  let n := nat_of_ascii c in
  (((9 <=? n) && (n <=? 13)) || (n =? 32) || (n =? 133) || (n =? 160))%nat.

Definition digit_value (c : ascii) : option Z :=
  let n := nat_of_ascii c in
  if ((48 <=? n) && (n <=? 57))%nat then Some (Z.of_nat (n - 48)) else None.

Fixpoint lstrip (s : string) : string :=
  match s with
  | EmptyString => EmptyString
  | String c s' => if isspace c then lstrip s' else s
  end.

(** The digits of a decimal literal: one or more digits, single underscores
    allowed between two digits.  [prev_digit] tells that the character
    before [s] was a digit.  Returns the value and the unread rest. *)
Fixpoint scan_digits (prev_digit : bool) (acc : Z) (s : string)
  : option (Z * string) :=
  match s with
  | EmptyString => if prev_digit then Some (acc, s) else None
  | String c s' =>
      match digit_value c with
      | Some d => scan_digits true (10 * acc + d) s'
      | None =>
          if prev_digit then
            if Ascii.eqb c "_" then scan_digits false acc s'
            else Some (acc, s)
          else None
      end
  end.

(** [int(s)] for a [str], base ten, as Python 3 reads it: optional white
    space, optional sign, digits, optional white space; anything else is a
    [ValueError].  Integers are unbounded and no limit is put on the number
    of digits. *)
Definition int (s : string) : result Z :=
  let s1 := lstrip s in
  let '(neg, s2) :=
    match s1 with
    | String c s' =>
        if Ascii.eqb c "-" then (true, s')
        else if Ascii.eqb c "+" then (false, s')
        else (false, s1)
    | EmptyString => (false, s1)
    end in
  match scan_digits false 0 s2 with
  | Some (v, rest) =>
      match lstrip rest with
      | EmptyString => Ok (if neg then (- v)%Z else v)
      | String _ _ => Raise ValueError
      end
  | None => Raise ValueError
  end.

(** [tuple(f(x) for x in l)]: the elements are computed from left to
    right and the first exception ends the computation. *)
Fixpoint tuple_of {A B : Type} (f : A -> result B) (l : list A)
  : result (list B) :=
  match l with
  | [] => Ok []
  | x :: l' =>
      match f x with
      | Ok y =>
          match tuple_of f l' with
          | Ok ys => Ok (y :: ys)
          | Raise e => Raise e
          end
      | Raise e => Raise e
      end
  end.

End Py.

Notation "x <- m ;; k" := (Py.bind m (fun x => k))
  (at level 61, m at next level, right associativity).

(** ** The class [DataUrl] *)

Module Url.
Import Py.

(** An element of a [data_slice] tuple: [Ellipsis], [slice(None)], an
    [int], or ([Other]) an object of any other type, which only a caller
    building the object from components can supply. *)
Inductive slice_item : Type :=
| Ellipsis
| SliceNone
| Int (z : Z)
| Other.

(** The private attributes of an instance. *)
Record DataUrl : Type := mkDataUrl {
  __is_valid : bool;
  __file_path : option string;
  __data_path : option string;
  __data_slice : option (list slice_item);
  __scheme : option string;
  __path : option string
}.

(** The object as [__init__] receives it.  Every path through [__init__]
    assigns all six attributes before it returns, so the values given here
    to the attributes not yet assigned are never read. *)
Definition new : DataUrl := mkDataUrl false None None None None None.

Definition set_is_valid (self : DataUrl) (v : bool) : DataUrl :=
  mkDataUrl v (__file_path self) (__data_path self) (__data_slice self)
            (__scheme self) (__path self).

Definition set_file_path (self : DataUrl) (v : option string) : DataUrl :=
  mkDataUrl (__is_valid self) v (__data_path self) (__data_slice self)
            (__scheme self) (__path self).

Definition set_data_path (self : DataUrl) (v : option string) : DataUrl :=
  mkDataUrl (__is_valid self) (__file_path self) v (__data_slice self)
            (__scheme self) (__path self).

Definition set_data_slice (self : DataUrl) (v : option (list slice_item))
  : DataUrl :=
  mkDataUrl (__is_valid self) (__file_path self) (__data_path self) v
            (__scheme self) (__path self).

Definition set_scheme (self : DataUrl) (v : option string) : DataUrl :=
  mkDataUrl (__is_valid self) (__file_path self) (__data_path self)
            (__data_slice self) v (__path self).

Definition set_path (self : DataUrl) (v : option string) : DataUrl :=
  mkDataUrl (__is_valid self) (__file_path self) (__data_path self)
            (__data_slice self) (__scheme self) v.

Definition is_None {A : Type} (x : option A) : bool :=
  match x with
  | None => true
  | Some _ => false
  end.

(** [DataUrl.__check_validity] *)
Definition __check_validity (self : DataUrl) : DataUrl :=
  match __file_path self with
  | None => set_is_valid self false
  | Some f =>
      if f =? "" then set_is_valid self false
      else
        match __scheme self with
        | None => set_is_valid self true
        | Some sc =>
            if sc =? "fabio" then
              set_is_valid self (is_None (__data_path self))
            else if sc =? "silx" then
              let slice_implies_data :=
                (is_None (__data_path self) && is_None (__data_slice self))
                || negb (is_None (__data_path self)) in
              set_is_valid self slice_implies_data
            else set_is_valid self false
        end
  end.

(** [str_to_slice], local to [__parse_from_path] *)
Definition str_to_slice (string : string) : result slice_item :=
  if string =? "..." then Ok Ellipsis
  else if string =? ":" then Ok SliceNone
  else z <- int string ;; Ok (Int z).

(** How a block of statements ends: it falls through to the next
    statement, or it executes [return]. *)
Inductive flow : Type :=
| Next (self : DataUrl)
| Return (self : DataUrl).

(** Lines 124-135: the scheme and the file part of the first element. *)
Definition parse_scheme (self : DataUrl) (elements : list string)
  : result (DataUrl * string) :=
  e0 <- list_getitem elements 0 ;;
  let scheme_and_filepath := split e0 ":" (Some 1) in
  if Nat.eqb (List.length scheme_and_filepath) 2 then
    s0 <- list_getitem scheme_and_filepath 0 ;;
    if Nat.leb (len s0) 2 then
      (* Windows driver *)
      file_path <- list_getitem elements 0 ;;
      Ok (set_scheme self None, file_path)
    else
      s0 <- list_getitem scheme_and_filepath 0 ;;
      file_path <- list_getitem scheme_and_filepath 1 ;;
      Ok (set_scheme self (Some s0), file_path)
  else
    file_path <- list_getitem scheme_and_filepath 0 ;;
    Ok (set_scheme self None, file_path).

(** Lines 137-144: the file part becomes the file path. *)
Definition parse_file_path (file_path : string) : result string :=
  if startswith file_path "///" then
    (* absolute path *)
    let file_path := slice_from 3 file_path in
    windows <-
      (if Nat.ltb 2 (len file_path) then
         c1 <- getitem file_path 1 ;;
         if Ascii.eqb c1 ":" then Ok true
         else c2 <- getitem file_path 2 ;; Ok (Ascii.eqb c2 ":")
       else Ok false) ;;
    if windows then Ok file_path else Ok ("/" ++ file_path)
  else Ok file_path.

(** Lines 149-170: the selector, when there is one. *)
Definition parse_selector (self : DataUrl) (elements : list string)
  : result flow :=
  if Nat.eqb (List.length elements) 1 then Ok (Next self)
  else
    selector <- list_getitem elements 1 ;;
    let selectors := split selector "[" (Some 1) in
    data_path <- list_getitem selectors 0 ;;
    let data_path := if Nat.eqb (len data_path) 0 then None else Some data_path in
    let self := set_data_path self data_path in
    if Nat.eqb (List.length selectors) 2 then
      s1 <- list_getitem selectors 1 ;;
      let data_slice := split s1 "]" (Some 1) in
      stop <-
        (if Nat.ltb (List.length data_slice) 2 then Ok true
         else d1 <- list_getitem data_slice 1 ;; Ok (negb (d1 =? ""))) ;;
      if stop then Ok (Return (set_is_valid self false))
      else
        d0 <- list_getitem data_slice 0 ;;
        let data_slice := split d0 "," None in
        try_except
          (data_slice <- tuple_of str_to_slice data_slice ;;
           Ok (Next (set_data_slice self (Some data_slice))))
          ValueError
          (Ok (Return (set_is_valid self false)))
    else Ok (Next self).

(** [DataUrl.__parse_from_path] *)
Definition __parse_from_path (self : DataUrl) (path : string) : result DataUrl :=
  let elements := split path "::" (Some 1) in
  let self := set_path self (Some path) in
  sf <- parse_scheme self elements ;;
  let '(self, file_path) := sf in
  file_path <- parse_file_path file_path ;;
  let self := set_file_path self (Some file_path) in
  let self := set_data_slice self None in
  let self := set_data_path self None in
  fl <- parse_selector self elements ;;
  match fl with
  | Return self => Ok self
  | Next self => Ok (__check_validity self)
  end.

(** [DataUrl.__init__] *)
Definition __init__ (path file_path data_path : option string)
           (data_slice : option (list slice_item)) (scheme : option string)
  : result DataUrl :=
  let self := set_is_valid new false in
  match path with
  | Some path =>
      _ <- assert (is_None file_path) ;;
      _ <- assert (is_None data_path) ;;
      _ <- assert (is_None data_slice) ;;
      _ <- assert (is_None scheme) ;;
      __parse_from_path self path
  | None =>
      let self := set_file_path self file_path in
      let self := set_data_path self data_path in
      let self := set_data_slice self data_slice in
      let self := set_scheme self scheme in
      let self := set_path self None in
      Ok (__check_validity self)
  end.

(** The accessors. *)
Definition is_valid (self : DataUrl) : bool := __is_valid self.
Definition file_path (self : DataUrl) : option string := __file_path self.
Definition data_path (self : DataUrl) : option string := __data_path self.
Definition data_slice (self : DataUrl) : option (list slice_item) :=
  __data_slice self.
Definition scheme (self : DataUrl) : option string := __scheme self.

(** [DataUrl.is_absolute] *)
Definition is_absolute (self : DataUrl) : result bool :=
  match file_path self with
  | None => Raise TypeError (* len(None) *)
  | Some file_path =>
      slash <-
        (if Nat.ltb 0 (len file_path) then
           c0 <- getitem file_path 0 ;; Ok (Ascii.eqb c0 "/")
         else Ok false) ;;
      if slash then Ok true
      else if Nat.ltb 2 (len file_path) then
        (* Windows *)
        c1 <- getitem file_path 1 ;;
        if Ascii.eqb c1 ":" then Ok true
        else c2 <- getitem file_path 2 ;;
             if Ascii.eqb c2 ":" then Ok true else Ok false
      else if Nat.ltb 1 (len file_path) then
        (* Windows *)
        c1 <- getitem file_path 1 ;;
        if Ascii.eqb c1 ":" then Ok true else Ok false
      else Ok false
  end.

(** [slice_to_string], local to [path] *)
Definition slice_to_string (data_slice : slice_item) : result string :=
  match data_slice with
  | Ellipsis => Ok "..."
  | SliceNone => Ok ":"
  | Int z => Ok (str z)
  | Other => Raise TypeError
  end.

(** [DataUrl.path] *)
Definition path (self : DataUrl) : result string :=
  match __path self with
  | Some p => Ok p
  | None =>
      let path := "" in
      let selector := "" in
      let path :=
        match __file_path self with
        | Some f => path ++ f
        | None => path
        end in
      let selector :=
        match __data_path self with
        | Some d => selector ++ d
        | None => selector
        end in
      selector <-
        match __data_slice self with
        | Some ds =>
            items <- tuple_of slice_to_string ds ;;
            Ok (selector ++ "[" ++ join "," items ++ "]")
        | None => Ok selector
        end ;;
      let path :=
        if negb (selector =? "") then path ++ "::" ++ selector else path in
      match __scheme self with
      | Some sc =>
          absolute <- is_absolute self ;;
          if absolute then
            if startswith path "/" then Ok (sc ++ "://" ++ path)
            else Ok (sc ++ ":///" ++ path)
          else Ok (sc ++ ":" ++ path)
      | None => Ok path
      end
  end.

(** [DataUrl(path)] and [DataUrl(file_path=..., data_path=..., data_slice=...,
    scheme=...)], the two ways the class is called. *)
Definition from_path (path : string) : result DataUrl :=
  __init__ (Some path) None None None None.

Definition from_components (file_path data_path : option string)
           (data_slice : option (list slice_item)) (scheme : option string)
  : result DataUrl :=
  __init__ None file_path data_path data_slice scheme.

End Url.

Import Py Url.

(** ** Notions used to state the properties *)

(** [sub in s] *)
Definition contains (s sub : string) : bool :=
  match find sub s with
  | Some _ => true
  | None => false
  end.

(** [s] has the character [c] at index [i]. *)
Definition char_is (s : string) (i : nat) (c : ascii) : bool :=
  match String.get i s with
  | Some d => Ascii.eqb d c
  | None => false
  end.

(** The first element of [path.split("::", 1)]: the part of [path] before
    the first "::", the whole of [path] when there is none. *)
Definition first_segment (path : string) : string :=
  match find "::" path with
  | Some i => slice_to i path
  | None => path
  end.

(** The part of [path] after the first "::", when there is one. *)
Definition selector_part (path : string) : option string :=
  match find "::" path with
  | Some i => Some (slice_from (i + 2) path)
  | None => None
  end.

(** The value of the local variable [file_path] when line 137 is reached:
    what lines 124-135 make of the first element. *)
Definition file_part (path : string) : string :=
  match parse_scheme new (split path "::" (Some 1)) with
  | Ok (_, file_path) => file_path
  | Raise _ => ""
  end.

(** A slice term that [str_to_slice] cannot read: it is neither of the two
    markers and [int] rejects it. *)
Definition bad_term (t : string) : Prop :=
  t <> "..." /\ t <> ":" /\ int t = Raise ValueError.

(** The terms of a bracket's contents: none holds a comma or a closing
    bracket. *)
Definition terms_wf (terms : list string) : Prop :=
  Forall (fun t => contains t "," = false /\ contains t "]" = false) terms.

(** The three ways a selector is malformed.  In each, [dp] is the text before
    the first opening bracket. *)
Inductive malformed_selector : string -> Prop :=
| Unterminated (dp sl : string) :
    contains dp "[" = false ->
    contains sl "]" = false ->
    malformed_selector (dp ++ "[" ++ sl)
| Trailing (dp body rest : string) :
    contains dp "[" = false ->
    contains body "]" = false ->
    rest <> "" ->
    malformed_selector (dp ++ "[" ++ body ++ "]" ++ rest)
| BadTerm (dp : string) (terms : list string) (t : string) :
    contains dp "[" = false ->
    terms_wf terms ->
    In t terms ->
    bad_term t ->
    malformed_selector (dp ++ "[" ++ join "," terms ++ "]").

(** [path] has a selector, and it is malformed. *)
Definition malformed (path : string) : Prop :=
  exists sel, selector_part path = Some sel /\ malformed_selector sel.

(** [data_path] as line 155 leaves it. *)
Definition data_path_of (dp : string) : option string :=
  if Nat.eqb (len dp) 0 then None else Some dp.

(** What [parse_selector] does with a selector [sel]. *)
Definition selector_flow (self : DataUrl) (sel : string) : flow :=
  match find "[" sel with
  | None =>
      Next (set_data_path self (data_path_of sel))
  | Some i =>
      let dp := slice_to i sel in
      let self := set_data_path self (data_path_of dp) in
      let sl := slice_from (i + 1) sel in
      match find "]" sl with
      | None => Return (set_is_valid self false)
      | Some j =>
          if negb (slice_from (j + 1) sl =? "") then Return (set_is_valid self false)
          else
            match tuple_of str_to_slice (split (slice_to j sl) "," None) with
            | Ok t => Next (set_data_slice self (Some t))
            | Raise _ => Return (set_is_valid self false)
            end
      end
  end.

(** What lines 137-144 make of the file part [fp]. *)
Definition file_path_of (fp : string) : string :=
  if startswith fp "///" then
    let r := slice_from 3 fp in
    if Nat.ltb 2 (len r) && (char_is r 1 ":" || char_is r 2 ":") then r
    else "/" ++ r
  else fp.

(** The scheme that lines 124-135 assign. *)
Definition scheme_part (path : string) : option string :=
  match parse_scheme new (split path "::" (Some 1)) with
  | Ok (self, _) => __scheme self
  | Raise _ => None
  end.

(** The object when line 149 is reached. *)
Definition before_selector (path : string) : DataUrl :=
  mkDataUrl false (Some (file_path_of (file_part path))) None None
            (scheme_part path) (Some path).

(** The end of [__parse_from_path]: the validity check, unless the selector
    block has returned. *)
Definition finish (fl : flow) : DataUrl :=
  match fl with
  | Return self => self
  | Next self => __check_validity self
  end.

(** ** Notions for the serializer *)

(** [all(P(c) for c in s)] *)
Fixpoint forall_chars (P : ascii -> bool) (s : string) : bool :=
  match s with
  | EmptyString => true
  | String c s' => P c && forall_chars P s'
  end.


(** What [slice_to_string] returns for an item it accepts. *)
Definition item_string (x : slice_item) : string :=
  match x with
  | Ellipsis => "..."
  | SliceNone => ":"
  | Int z => str z
  | Other => ""
  end.

(** The selector that [path] builds from the data path and the slice. *)
Definition selector_string (dp : option string) (ds : option (list slice_item))
  : string :=
  match dp with Some d => d | None => "" end ++
  match ds with
  | Some l => "[" ++ join "," (map item_string l) ++ "]"
  | None => ""
  end.

(** What [path] appends to the file path: nothing for an empty selector. *)
Definition selector_suffix (dp : option string) (ds : option (list slice_item))
  : string :=
  if negb (selector_string dp ds =? "") then "::" ++ selector_string dp ds
  else "".

(** The instance that [__init__] builds from components. *)
Definition built (fp dp : option string) (ds : option (list slice_item))
           (sc : option string) : DataUrl :=
  __check_validity (mkDataUrl false fp dp ds sc None).

(** [f] starts with "/" or has ":" at index 1 or 2. *)
Definition absolute (f : string) : bool :=
  char_is f 0 "/" || char_is f 1 ":" || char_is f 2 ":".

(** The string that [path] computes from the components, for a file path
    [fp] and a slice without an item of an unexpected type. *)
Definition serialized (fp : string) (dp : option string)
           (ds : option (list slice_item)) (sc : option string) : string :=
  let body := fp ++ selector_suffix dp ds in
  match sc with
  | None => body
  | Some name =>
      if absolute fp then
        if startswith body "/" then name ++ "://" ++ body
        else name ++ ":///" ++ body
      else name ++ ":" ++ body
  end.



(** ** silx.gui.fit.BackgroundWidget: the anchors and the SNIP background

    The two blocks of [BackgroundWidget.update] that work on indices.  The
    abscissa [x] is a one-dimensional array of integers, as are the anchors
    of the spin boxes; the ordinates are of a type that is left open, and
    so is the filter [snip1d], a function of the slice it is given. *)

Module Background.
Import Py.

(** [numpy.nonzero(ravelled >= channel)[0]]: the indices of the elements
    that are at least [channel], in ascending order, counted from [i]. *)
Fixpoint nonzero_ge_from (i : Z) (ravelled : list Z) (channel : Z) : list Z :=
  match ravelled with
  | [] => []
  | v :: rest =>
      if (channel <=? v)%Z then i :: nonzero_ge_from (i + 1) rest channel
      else nonzero_ge_from (i + 1) rest channel
  end.

Definition nonzero_ge (ravelled : list Z) (channel : Z) : list Z :=
  nonzero_ge_from 0 ravelled channel.

(** [min(index)] *)
Definition min_of (index : list Z) : result Z :=
  match index with
  | [] => Raise ValueError
  | i :: rest => Ok (fold_left Z.min rest i)
  end.

(** Lines 307-315: the loop over the anchors. *)
Fixpoint anchors_loop (ravelled anchorslist anchors_indices : list Z)
  : result (list Z) :=
  match anchorslist with
  | [] => Ok anchors_indices
  | channel :: rest =>
      x0 <- list_getitem ravelled 0 ;;
      if (channel <=? x0)%Z then anchors_loop ravelled rest anchors_indices
      else
        let index := nonzero_ge ravelled channel in
        if negb (Nat.eqb (List.length index) 0) then
          index <- min_of index ;;
          if (0 <? index)%Z then
            anchors_loop ravelled rest (anchors_indices ++ [index])%list
          else anchors_loop ravelled rest anchors_indices
        else anchors_loop ravelled rest anchors_indices
  end.

(** Lines 305-315: [anchors_indices] from the parameters and [x]. *)
Definition anchors_block (anchorsflag : bool) (anchorslist : option (list Z))
           (x : list Z) : result (list Z) :=
  match anchorslist with
  | Some channels =>
      if anchorsflag then anchors_loop x channels [] else Ok []
  | None => Ok []
  end.

(** [i] is the index of the first element of [x] that is at least
    [channel]. *)
Definition first_at_least (x : list Z) (channel i : Z) : Prop :=
  (0 <= i < Z.of_nat (List.length x))%Z /\
  (channel <= nth (Z.to_nat i) x 0)%Z /\
  forall j, (0 <= j < i)%Z -> (nth (Z.to_nat j) x 0 < channel)%Z.

(** [l.sort()] on integers: the ascending rearrangement. *)
Fixpoint insert_sorted (a : Z) (l : list Z) : list Z :=
  match l with
  | [] => [a]
  | b :: rest => if (a <=? b)%Z then a :: l else b :: insert_sorted a rest
  end.

Fixpoint list_sort (l : list Z) : list Z :=
  match l with
  | [] => []
  | a :: rest => insert_sorted a (list_sort rest)
  end.

(** A bound [i] of a slice of an array of length [n], as Python reads it:
    a negative bound counts from the end, and bounds are clipped. *)
Definition slice_bound (i : Z) (n : nat) : nat :=
  if (i <? 0)%Z then Z.to_nat (Z.max (i + Z.of_nat n) 0)
  else Nat.min (Z.to_nat i) n.

Section Snip.

(** The type of the ordinates and of the filter width. *)
Variable value : Type.
Variable width_t : Type.

(** [filters.snip1d] *)
Variable snip1d : list value -> width_t -> list value.

(** [0.0 * v] *)
Variable times_zero : value -> value.

(** [a[i:j]] *)
Definition getslice (a : list value) (i j : Z) : list value :=
  let lo := slice_bound i (List.length a) in
  let hi := slice_bound j (List.length a) in
  firstn (hi - lo) (skipn lo a).

(** [a[i:]] *)
Definition getslice_from (a : list value) (i : Z) : list value :=
  skipn (slice_bound i (List.length a)) a.

(** Assigning [b] to the [m] elements of [a] from index [lo] on, as numpy
    does: [b] has [m] elements, or one element that is repeated; any other
    length is a [ValueError]. *)
Definition assign (a : list value) (lo m : nat) (b : list value)
  : result (list value) :=
  if Nat.eqb (List.length b) m then
    Ok (firstn lo a ++ b ++ skipn (lo + m) a)%list
  else
    match b with
    | [v] => Ok (firstn lo a ++ repeat v m ++ skipn (lo + m) a)%list
    | _ => Raise ValueError
    end.

(** [a[i:j] = b] *)
Definition setslice (a : list value) (i j : Z) (b : list value)
  : result (list value) :=
  let lo := slice_bound i (List.length a) in
  let hi := slice_bound j (List.length a) in
  assign a lo (hi - lo) b.

(** [a[i:] = b] *)
Definition setslice_from (a : list value) (i : Z) (b : list value)
  : result (list value) :=
  let lo := slice_bound i (List.length a) in
  assign a lo (List.length a - lo) b.

(** Lines 337-341: the loop over the sorted anchors. *)
Fixpoint snip_loop (ysmooth : list value) (width : width_t)
         (anchors_indices : list Z) (snipBackground : list value)
         (lastAnchor : Z) : result (list value * Z) :=
  match anchors_indices with
  | [] => Ok (snipBackground, lastAnchor)
  | anchor :: rest =>
      if (lastAnchor <? anchor)%Z
         && (anchor <? Z.of_nat (List.length ysmooth))%Z then
        snipBackground <-
          setslice snipBackground lastAnchor anchor
                   (snip1d (getslice ysmooth lastAnchor anchor) width) ;;
        snip_loop ysmooth width rest snipBackground anchor
      else snip_loop ysmooth width rest snipBackground lastAnchor
  end.

(** Lines 331-344: [snipBackground] from [ysmooth], the width and the
    anchors. *)
Definition snip_block (ysmooth : list value) (width : width_t)
           (anchors_indices : list Z) : result (list value) :=
  let anchors_indices :=
    if Nat.eqb (List.length anchors_indices) 0
    then [0%Z; (Z.of_nat (List.length ysmooth) - 1)%Z]
    else anchors_indices in
  let anchors_indices := list_sort anchors_indices in
  let snipBackground := map times_zero ysmooth in
  let lastAnchor := 0%Z in
  r <- snip_loop ysmooth width anchors_indices snipBackground lastAnchor ;;
  let '(snipBackground, lastAnchor) := r in
  if (lastAnchor <? Z.of_nat (List.length ysmooth))%Z then
    setslice_from snipBackground lastAnchor
                  (snip1d (getslice_from ysmooth lastAnchor) width)
  else Ok snipBackground.

(** What the loop keeps true: [segs] are the slices filtered so far, they
    make up [ysmooth] up to [lastAnchor], and [snipBackground] holds their
    filtered values followed by the zeros not yet overwritten. *)
Definition snip_state (ysmooth : list value) (w : width_t)
           (segs : list (list value)) (snipBackground : list value)
           (lastAnchor : Z) : Prop :=
  (lastAnchor = 0 \/ 0 < lastAnchor < Z.of_nat (List.length ysmooth))%Z /\
  List.concat segs = firstn (Z.to_nat lastAnchor) ysmooth /\
  Forall (fun s => s <> []) segs /\
  snipBackground =
  (List.concat (map (fun s => snip1d s w) segs)
   ++ map times_zero (skipn (Z.to_nat lastAnchor) ysmooth))%list.

End Snip.

Arguments getslice {value} a i j.
Arguments getslice_from {value} a i.
Arguments assign {value} a lo m b.
Arguments setslice {value} a i j b.
Arguments setslice_from {value} a i b.
Arguments snip_loop {value width_t} snip1d ysmooth width anchors_indices
  snipBackground lastAnchor.
Arguments snip_state {value width_t} snip1d times_zero ysmooth w segs
  snipBackground lastAnchor.
Arguments snip_block {value width_t} snip1d times_zero ysmooth width
  anchors_indices.

End Background.

Import Background.

(** ** Widgets: methods that change an object and may raise

    A method is a function of the state of the object that returns the new
    state together with what the call ends in: a value or an exception.
    The state reached when an exception is raised is kept, as the object
    lives on after the call. *)

Module Gui.

Inductive error : Type :=
| PyError (e : Py.exn)
| AttributeError
| NotImplementedError.

Inductive outcome (A : Type) : Type :=
| Returns (a : A)
| Raises (e : error).

Arguments Returns {A} a.
Arguments Raises {A} e.

Definition M (St A : Type) : Type := St -> St * outcome A.

Definition ret {St A : Type} (a : A) : M St A := fun s => (s, Returns a).

Definition raise {St A : Type} (e : error) : M St A := fun s => (s, Raises e).

Definition bind {St A B : Type} (m : M St A) (k : A -> M St B) : M St B :=
  fun s =>
    match m s with
    | (s', Returns a) => k a s'
    | (s', Raises e) => (s', Raises e)
    end.

(** A computation that reads the state and may raise, without changing it. *)
Definition ask {St A : Type} (f : St -> outcome A) : M St A := fun s => (s, f s).

(** A value that may be an exception, whatever the state. *)
Definition lift {St A : Type} (o : outcome A) : M St A := fun s => (s, o).

Definition modify {St : Type} (f : St -> St) : M St unit := fun s => (f s, Returns tt).

(** A call that returns the new state, or raises and leaves the state. *)
Definition call {St : Type} (f : St -> outcome St) : M St unit :=
  fun s =>
    match f s with
    | Returns s' => (s', Returns tt)
    | Raises e => (s, Raises e)
    end.

(** [int(s)] for a [str] *)
Definition int_of_str (s : string) : outcome Z :=
  match Py.int s with
  | Py.Ok z => Returns z
  | Py.Raise e => Raises (PyError e)
  end.

(** [m] keeps [P]: from a state with [P] it ends in a state with [P],
    whether it returns or raises. *)
Definition keeps {St A : Type} (P : St -> Prop) (m : M St A) : Prop :=
  forall s, P s -> P (fst (m s)).

(** [m] never returns: every call ends in an exception. *)
Definition never_returns {St A : Type} (m : M St A) : Prop :=
  forall s, exists e, snd (m s) = Raises e.

End Gui.

Notation "x <~ m ;; k" := (Gui.bind m (fun x => k))
  (at level 61, m at next level, right associativity).
Notation "m ;;; k" := (Gui.bind m (fun _ => k))
  (at level 61, right associativity).

(** ** silx.gui.fit.BackgroundWidget: the parameters of the form

    [BackgroundParamWidget], with Qt and the objects of the dictionaries
    left open: [V] is the type of the Python objects a dictionary holds,
    [Q] the state of the Qt widgets of the form.  Every call into Qt
    returns the new state of the widgets or raises. *)

Module ParamWidget.
Import Gui.

Section Form.

Variable V : Type.
Variable Q : Type.

(** [v == s] for a [str] [s] (the objects are such that this is a [bool]),
    [v is None], [int(v)], [bool(v)], ["...%s" % v], the values of
    [for value in v], and the objects made from a [str], an [int], a
    [bool], the [float] 1.0 and a [list]. *)
Variable eq_str : V -> string -> bool.
Variable percent_s : V -> outcome string.
Variable is_None : V -> bool.
Variable py_int : V -> outcome Z.
Variable py_bool : V -> outcome bool.
Variable iterate : V -> outcome (list V).
Variable of_str : string -> V.
Variable of_int : Z -> V.
Variable of_bool : bool -> V.
Variable float_one : V.
Variable of_list : list V -> V.

(** The setters of the Qt widgets. *)
Variable stripWidthSpin_setEnabled : bool -> Q -> outcome Q.
Variable stripIterValue_setEnabled : bool -> Q -> outcome Q.
Variable snipWidthSpin_setEnabled : bool -> Q -> outcome Q.
Variable snipWidthSpin_setValue : Z -> Q -> outcome Q.
Variable stripWidthSpin_setValue : Z -> Q -> outcome Q.
Variable stripIterValue_setText : string -> Q -> outcome Q.
Variable smoothingSpin_setValue : Z -> Q -> outcome Q.
Variable anchorsFlagCheck_setChecked : bool -> Q -> outcome Q.
Variable anchorSpin_setValue : nat -> Z -> Q -> outcome Q.

(** The getters of the Qt widgets. *)
Variable stripIterValue_text : Q -> string.
Variable snipWidthSpin_value : Q -> Z.
Variable stripWidthSpin_value : Q -> Z.
Variable smoothingFlagCheck_isChecked : Q -> bool.
Variable smoothingSpin_value : Q -> Z.
Variable anchorsFlagCheck_isChecked : Q -> bool.
Variable anchorSpin_value : nat -> Q -> Z.

(** The form: the attribute [algorithm] and the Qt widgets. *)
Record form : Type := mkForm {
  algorithm : V;
  qt : Q
}.

Definition qt_call (f : Q -> outcome Q) : M form unit :=
  call (fun self =>
          match f (qt self) with
          | Returns q => Returns (mkForm (algorithm self) q)
          | Raises e => Raises e
          end).

(** [num_anchors], the length of [self.anchorsList] *)
Definition num_anchors : nat := 4.

(** [BackgroundParamWidget._setAlgorithm] *)
Definition _setAlgorithm (algorithm : V) : M form unit :=
  if negb (eq_str algorithm "strip" || eq_str algorithm "snip") then
    message <~ lift (percent_s algorithm) ;;
    raise (PyError Py.ValueError)
  else
    modify (fun self => mkForm algorithm (qt self)) ;;;
    qt_call (stripWidthSpin_setEnabled (eq_str algorithm "strip")) ;;;
    qt_call (stripIterValue_setEnabled (eq_str algorithm "strip")) ;;;
    qt_call (snipWidthSpin_setEnabled (eq_str algorithm "snip")).

(** [BackgroundParamWidget._algorithmComboActivated] *)
Definition _algorithmComboActivated (algorithm_index : Z) : M form unit :=
  _setAlgorithm (of_str (if Z.eqb algorithm_index 0 then "strip" else "snip")).

(** [if key in ddict: body(ddict[key])] *)
Definition when_in (ddict : string -> option V) (key : string)
           (body : V -> M form unit) : M form unit :=
  match ddict key with
  | Some v => body v
  | None => ret tt
  end.

(** Lines 211-214: the loop over the values of the anchors list. *)
Fixpoint set_anchors (i : nat) (anchorslist : list V) : M form unit :=
  match anchorslist with
  | [] => ret tt
  | value :: rest =>
      (if Nat.ltb i num_anchors then ret tt
       else raise (PyError Py.IndexError)) ;;;
      n <~ lift (py_int value) ;;
      qt_call (anchorSpin_setValue i n) ;;;
      set_anchors (S i) rest
  end.

(** Lines 208-209: [for spin in self.anchorsList: spin.setValue(0)] *)
Fixpoint reset_anchors (i count : nat) : M form unit :=
  match count with
  | O => ret tt
  | S count' =>
      qt_call (anchorSpin_setValue i 0%Z) ;;; reset_anchors (S i) count'
  end.

(** [BackgroundParamWidget.setParameters] *)
Definition setParameters (ddict : string -> option V) : M form unit :=
  when_in ddict "algorithm" (fun v => _setAlgorithm v) ;;;
  when_in ddict "snipwidth"
    (fun v => n <~ lift (py_int v) ;; qt_call (snipWidthSpin_setValue n)) ;;;
  when_in ddict "stripwidth"
    (fun v => n <~ lift (py_int v) ;; qt_call (stripWidthSpin_setValue n)) ;;;
  when_in ddict "stripiterations"
    (fun v => n <~ lift (py_int v) ;;
              qt_call (stripIterValue_setText (Py.str n))) ;;;
  when_in ddict "smoothingflag"
    (fun v => (* self.self *) raise AttributeError) ;;;
  when_in ddict "smoothingwidth"
    (fun v => n <~ lift (py_int v) ;; qt_call (smoothingSpin_setValue n)) ;;;
  when_in ddict "anchorsflag"
    (fun v => b <~ lift (py_bool v) ;;
              qt_call (anchorsFlagCheck_setChecked b)) ;;;
  when_in ddict "anchorslist"
    (fun v =>
       anchorslist <~
         (if is_None v || eq_str v "None" then ret []
          else lift (iterate v)) ;;
       reset_anchors 0 num_anchors ;;;
       set_anchors 0 anchorslist).

(** The dictionary that [getParameters] returns, as a function of the key. *)
Definition parameters (self : form) (stripiter : Z) (key : string) : option V :=
  if key =? "algorithm" then Some (algorithm self)
  else if key =? "stripthreshold" then Some float_one
  else if key =? "snipwidth" then Some (of_int (snipWidthSpin_value (qt self)))
  else if key =? "stripiterations" then Some (of_int stripiter)
  else if key =? "stripwidth" then Some (of_int (stripWidthSpin_value (qt self)))
  else if key =? "smoothingflag" then
    Some (of_bool (smoothingFlagCheck_isChecked (qt self)))
  else if key =? "smoothingwidth" then
    Some (of_int (smoothingSpin_value (qt self)))
  else if key =? "anchorsflag" then
    Some (of_bool (anchorsFlagCheck_isChecked (qt self)))
  else if key =? "anchorslist" then
    Some (of_list (map (fun i => of_int (anchorSpin_value i (qt self)))
                       (seq 0 num_anchors)))
  else None.

(** [BackgroundParamWidget.getParameters] *)
Definition getParameters : M form (string -> option V) :=
  stripitertext <~ ask (fun self => Returns (stripIterValue_text (qt self))) ;;
  stripiter <~
    (if negb (Nat.eqb (Py.len stripitertext) 0)
     then lift (int_of_str stripitertext)
     else ret 0%Z) ;;
  ask (fun self => Returns (parameters self stripiter)).

(** The calls made on a form. *)
Inductive call_t : Type :=
| AlgorithmComboActivated (algorithm_index : Z)
| SetAlgorithm (algorithm : V)
| SetParameters (ddict : string -> option V).

Definition perform (c : call_t) (self : form) : form :=
  match c with
  | AlgorithmComboActivated i => fst (_algorithmComboActivated i self)
  | SetAlgorithm v => fst (_setAlgorithm v self)
  | SetParameters d => fst (setParameters d self)
  end.

(** [self.algorithm == "strip" or self.algorithm == "snip"] *)
Definition known_algorithm (self : form) : bool :=
  eq_str (algorithm self) "strip" || eq_str (algorithm self) "snip".

End Form.

End ParamWidget.

(** ** silx.gui.plot.actions.medfilt: the median filter actions

    [MedianFilterAction] and its two subclasses, with the plot, the dialog
    and [medfilt2d] left open: [plot] is the state of everything outside
    the action (the plot widget with its images and signals, the dialog),
    and every call into it returns its new state or raises. *)

Module MedFilt.
Import Gui.

Section Action.

Variable image : Type.
Variable legend : Type.
Variable plot : Type.

(** [plot.getActiveImage(just_legend=True)],
    [plot.getImage(legend).getData(copy=False)],
    [plot.getImage(legend).getLegend()],
    [plot.addImage(data=..., legend=..., replace=True)],
    [plot.sigActiveImageChanged.disconnect(self._updateActiveImage)],
    [plot.sigActiveImageChanged.connect(self._updateActiveImage)],
    [self._popup.show()], [MedianFilterDialog(parent=plot)] with the
    connection of its signal, and [medfilt2d]. *)
Variable getActiveImage : plot -> outcome (option legend).
Variable getData : legend -> plot -> outcome image.
Variable getLegend : legend -> plot -> outcome legend.
Variable addImage : image -> option legend -> plot -> outcome plot.
Variable disconnect : plot -> outcome plot.
Variable connect : plot -> outcome plot.
Variable popup_show : plot -> outcome plot.
Variable popup_create : plot -> outcome plot.
Variable medfilt2d : image -> Z * Z -> bool -> outcome image.

(** The three classes. *)
Inductive class : Type :=
| MedianFilterAction
| MedianFilter1DAction
| MedianFilter2DAction.

(** The attributes of the action, and what is around it. *)
Record action : Type := mkAction {
  _originalImage : option image;
  _legend : option legend;
  _filteredImage : option image;
  _activeImageLegend : option legend;
  the_plot : plot
}.

Definition set_originalImage (v : option image) (self : action) : action :=
  mkAction v (_legend self) (_filteredImage self) (_activeImageLegend self)
           (the_plot self).

Definition set_legend (v : option legend) (self : action) : action :=
  mkAction (_originalImage self) v (_filteredImage self)
           (_activeImageLegend self) (the_plot self).

Definition set_filteredImage (v : option image) (self : action) : action :=
  mkAction (_originalImage self) (_legend self) v (_activeImageLegend self)
           (the_plot self).

Definition set_activeImageLegend (v : option legend) (self : action) : action :=
  mkAction (_originalImage self) (_legend self) (_filteredImage self) v
           (the_plot self).

Definition set_plot (v : plot) (self : action) : action :=
  mkAction (_originalImage self) (_legend self) (_filteredImage self)
           (_activeImageLegend self) v.

Definition plot_call (f : plot -> outcome plot) : M action unit :=
  call (fun self =>
          match f (the_plot self) with
          | Returns p => Returns (set_plot p self)
          | Raises e => Raises e
          end).

Definition plot_ask {A : Type} (f : plot -> outcome A) : M action A :=
  ask (fun self => f (the_plot self)).

(** [MedianFilterAction._triggered] *)
Definition _triggered (checked : bool) : M action unit :=
  plot_call popup_show.

(** [MedianFilterAction._updateActiveImage] *)
Definition _updateActiveImage : M action unit :=
  active <~ plot_ask getActiveImage ;;
  modify (set_activeImageLegend active) ;;;
  match active with
  | None =>
      modify (set_originalImage None) ;;;
      modify (set_legend None)
  | Some l =>
      data <~ plot_ask (getData l) ;;
      modify (set_originalImage (Some data)) ;;;
      leg <~ plot_ask (getLegend l) ;;
      modify (set_legend (Some leg))
  end.

(** [_computeFilteredImage] of the three classes.  The plot is always
    there in this model, so that [assert(self.plot is not None)] of the
    two subclasses passes. *)
Definition _computeFilteredImage (c : class) (kernelWidth : Z)
           (conditional : bool) (originalImage : image) : M action image :=
  match c with
  | MedianFilterAction => raise NotImplementedError
  | MedianFilter1DAction =>
      lift (medfilt2d originalImage (kernelWidth, 1%Z) conditional)
  | MedianFilter2DAction =>
      lift (medfilt2d originalImage (kernelWidth, kernelWidth) conditional)
  end.

(** [MedianFilterAction._updateFilter] *)
Definition _updateFilter (c : class) (kernelWidth : Z) (conditional : bool)
  : M action unit :=
  original <~ ask (fun self => Returns (_originalImage self)) ;;
  match original with
  | None => ret tt
  | Some originalImage =>
      plot_call disconnect ;;;
      filteredImage <~
        _computeFilteredImage c kernelWidth conditional originalImage ;;
      leg <~ ask (fun self => Returns (_legend self)) ;;
      plot_call (addImage filteredImage leg) ;;;
      plot_call connect
  end.

(** [MedianFilterAction.getFilteredImage] *)
Definition getFilteredImage : M action (option image) :=
  ask (fun self => Returns (_filteredImage self)).

(** [MedianFilterAction.__init__], on the plot [p], after
    [PlotAction.__init__].  The attribute [_activeImageLegend] does not
    exist before [_updateActiveImage] assigns it; nothing reads it. *)
Definition __init__ (p : plot) : action * outcome unit :=
  (modify (set_originalImage None) ;;;
   modify (set_legend None) ;;;
   modify (set_filteredImage None) ;;;
   plot_call popup_create ;;;
   plot_call connect ;;;
   _updateActiveImage)
    (mkAction None None None None p).

(** The calls made on an action after its construction: by the user, and
    by the signals of the dialog and of the plot. *)
Inductive call_t : Type :=
| Triggered (checked : bool)
| UpdateActiveImage
| UpdateFilter (kernelWidth : Z) (conditional : bool)
| GetFilteredImage.

Definition perform (c : class) (self : action) (ev : call_t) : action :=
  match ev with
  | Triggered checked => fst (_triggered checked self)
  | UpdateActiveImage => fst (_updateActiveImage self)
  | UpdateFilter kernelWidth conditional =>
      fst (_updateFilter c kernelWidth conditional self)
  | GetFilteredImage => fst (getFilteredImage self)
  end.

End Action.

End MedFilt.

(** ** A form and a dictionary to compute with

    Objects: [None], [bool], [int], the [float] 1.0, [str] and [list];
    widgets that store what they are given. *)

Module Example.
Import Gui.

#[warnings="-register-all"]
Inductive pyval : Type :=
| PNone
| PBool (b : bool)
| PInt (z : Z)
| PFloatOne
| PStr (s : string)
| PList (l : list pyval).

Definition eq_str (v : pyval) (s : string) : bool :=
  match v with
  | PStr t => t =? s
  | _ => false
  end.

Definition is_None (v : pyval) : bool :=
  match v with
  | PNone => true
  | _ => false
  end.

Definition py_int (v : pyval) : outcome Z :=
  match v with
  | PInt z => Returns z
  | PBool b => Returns (if b then 1 else 0)%Z
  | PFloatOne => Returns 1%Z
  | PStr s => int_of_str s
  | PNone | PList _ => Raises (PyError Py.TypeError)
  end.

Definition py_bool (v : pyval) : outcome bool :=
  match v with
  | PNone => Returns false
  | PBool b => Returns b
  | PInt z => Returns (negb (Z.eqb z 0))
  | PFloatOne => Returns true
  | PStr s => Returns (negb (Nat.eqb (Py.len s) 0))
  | PList l => Returns (negb (Nat.eqb (List.length l) 0))
  end.

Definition percent_s (v : pyval) : outcome string :=
  Returns "Unknown background filter algorithm".

Definition iterate (v : pyval) : outcome (list pyval) :=
  match v with
  | PList l => Returns l
  | _ => Raises (PyError Py.TypeError)
  end.

(** The widgets: the text of the iterations field, the values of the three
    spin boxes, the two check boxes and the anchors. *)
Record widgets : Type := mkWidgets {
  stripIterText : string;
  snipWidth : Z;
  stripWidth : Z;
  smoothingWidth : Z;
  smoothingFlag : bool;
  anchorsFlag : bool;
  anchors : list Z
}.

Definition initial : widgets :=
  mkWidgets "0" 0 1 3 false false [0; 0; 0; 0]%Z.

Fixpoint set_nth (i : nat) (n : Z) (l : list Z) : list Z :=
  match l, i with
  | [], _ => []
  | _ :: rest, O => n :: rest
  | a :: rest, S i' => a :: set_nth i' n rest
  end.

Definition form : Type := ParamWidget.form pyval widgets.

Definition strip_form : form := ParamWidget.mkForm pyval widgets (PStr "strip") initial.

(** The setters: enabling changes nothing that is stored. *)
Definition setEnabled (b : bool) (q : widgets) : outcome widgets := Returns q.

Definition snipWidth_setValue (n : Z) (q : widgets) : outcome widgets :=
  Returns (mkWidgets (stripIterText q) n (stripWidth q) (smoothingWidth q)
                     (smoothingFlag q) (anchorsFlag q) (anchors q)).

Definition stripWidth_setValue (n : Z) (q : widgets) : outcome widgets :=
  Returns (mkWidgets (stripIterText q) (snipWidth q) n (smoothingWidth q)
                     (smoothingFlag q) (anchorsFlag q) (anchors q)).

Definition stripIter_setText (t : string) (q : widgets) : outcome widgets :=
  Returns (mkWidgets t (snipWidth q) (stripWidth q) (smoothingWidth q)
                     (smoothingFlag q) (anchorsFlag q) (anchors q)).

Definition smoothing_setValue (n : Z) (q : widgets) : outcome widgets :=
  Returns (mkWidgets (stripIterText q) (snipWidth q) (stripWidth q) n
                     (smoothingFlag q) (anchorsFlag q) (anchors q)).

Definition anchorsFlag_setChecked (b : bool) (q : widgets) : outcome widgets :=
  Returns (mkWidgets (stripIterText q) (snipWidth q) (stripWidth q)
                     (smoothingWidth q) (smoothingFlag q) b (anchors q)).

Definition anchor_setValue (i : nat) (n : Z) (q : widgets) : outcome widgets :=
  Returns (mkWidgets (stripIterText q) (snipWidth q) (stripWidth q)
                     (smoothingWidth q) (smoothingFlag q) (anchorsFlag q)
                     (set_nth i n (anchors q))).

Definition anchor_value (i : nat) (q : widgets) : Z := nth i (anchors q) 0%Z.

Definition setParameters (ddict : string -> option pyval) : M form unit :=
  ParamWidget.setParameters pyval widgets eq_str percent_s is_None py_int
    py_bool iterate setEnabled setEnabled setEnabled snipWidth_setValue
    stripWidth_setValue stripIter_setText smoothing_setValue
    anchorsFlag_setChecked anchor_setValue ddict.

Definition getParameters : M form (string -> option pyval) :=
  ParamWidget.getParameters pyval widgets PInt PBool PFloatOne PList
    stripIterText snipWidth stripWidth smoothingFlag smoothingWidth anchorsFlag
    anchor_value.

Definition perform (c : ParamWidget.call_t pyval) (self : form) : form :=
  ParamWidget.perform pyval widgets eq_str percent_s is_None py_int py_bool
    iterate PStr setEnabled setEnabled setEnabled snipWidth_setValue
    stripWidth_setValue stripIter_setText smoothing_setValue
    anchorsFlag_setChecked anchor_setValue c self.


End Example.

(** ** The built-ins on concrete inputs *)

Example split_first_only : split ":::" "::" (Some 1) = [""; ":"].
Proof. reflexivity. Qed.

Example split_absent : split "image.h5" "::" (Some 1) = ["image.h5"].
Proof. reflexivity. Qed.

Example split_every_comma : split "a,,b," "," None = ["a"; ""; "b"; ""].
Proof. reflexivity. Qed.

Example split_empty : split "" "," None = [""].
Proof. reflexivity. Qed.

Example int_padded : int " -1_0 " = Ok (-10)%Z.
Proof. reflexivity. Qed.

Example int_two_underscores : int "1__0" = Raise ValueError.
Proof. reflexivity. Qed.

Example int_empty : int "" = Raise ValueError.
Proof. reflexivity. Qed.

Example int_letter : int "x" = Raise ValueError.
Proof. reflexivity. Qed.

Example str_negative : str (-15) = "-15".
Proof. reflexivity. Qed.

Example str_zero : str 0 = "0".
Proof. reflexivity. Qed.

Example path_from_components :
  (u <- from_components (Some "/a/b") (Some "/d")
                        (Some [Int 3; Ellipsis; SliceNone]) (Some "silx") ;;
   path u) = Ok "silx:///a/b::/d[3,...,:]".
Proof. reflexivity. Qed.

Example path_other_type :
  (u <- from_components (Some "/a/b") None (Some [Other]) None ;; path u)
  = Raise TypeError.
Proof. reflexivity. Qed.

Example file_part_absolute : file_part "silx:///data/image.h5::/d" = "///data/image.h5".
Proof. reflexivity. Qed.

Example file_part_drive : file_part "C:/data/" = "C:/data/".
Proof. reflexivity. Qed.

(** ** Strings: [find], slices and [split] *)

Section Strings.

Lemma len_app (a b : string) : len (a ++ b) = len a + len b.
Proof. induction a as [|c a IH]; simpl; [reflexivity | unfold len in *; simpl; now rewrite IH]. Qed.

Lemma slice_to_app (a b : string) : slice_to (len a) (a ++ b) = a.
Proof. induction a as [|c a IH]; simpl; [now destruct b | now rewrite IH]. Qed.

Lemma slice_from_app (a b : string) (n : nat) :
  slice_from (len a + n) (a ++ b) = slice_from n b.
Proof. induction a as [|c a IH]; simpl; [reflexivity | exact IH]. Qed.

Lemma slice_to_from (n : nat) (s : string) : slice_to n s ++ slice_from n s = s.
Proof.
  revert s; induction n as [|n IH]; intros [|c s]; simpl; try reflexivity.
  now rewrite IH.
Qed.

Lemma len_slice_to (n : nat) (s : string) : n <= len s -> len (slice_to n s) = n.
Proof.
  revert s; induction n as [|n IH]; intros [|c s]; unfold len; simpl; intros H;
    try reflexivity; try lia.
  f_equal. apply IH. unfold len. lia.
Qed.

Lemma len_slice_from (n : nat) (s : string) : len (slice_from n s) = len s - n.
Proof.
  revert s; induction n as [|n IH]; intros [|c s]; unfold len; simpl;
    try reflexivity; try lia.
  apply IH.
Qed.

Lemma slice_from_add (n m : nat) (s : string) :
  slice_from (n + m) s = slice_from m (slice_from n s).
Proof.
  revert s; induction n as [|n IH]; intros [|c s]; simpl; try reflexivity.
  - now destruct m.
  - apply IH.
Qed.

Lemma prefix_app (p s : string) : String.prefix p (p ++ s) = true.
Proof.
  induction p as [|c p IH]; simpl; [now destruct s|].
  destruct (ascii_dec c c); [exact IH | congruence].
Qed.

Lemma prefix_split (p s : string) :
  String.prefix p s = true -> s = p ++ slice_from (len p) s.
Proof.
  revert s; induction p as [|c p IH]; intros s H; simpl; [reflexivity|].
  destruct s as [|d s]; simpl in H; [discriminate|].
  destruct (ascii_dec c d); [subst|discriminate].
  simpl. f_equal. now apply IH.
Qed.

Lemma find_unfold (sep s : string) :
  find sep s =
  if String.prefix sep s then Some O
  else match s with
       | EmptyString => None
       | String _ s' => option_map S (find sep s')
       end.
Proof. destruct s; reflexivity. Qed.

(** The separator stands at the index [find] returns. *)
Lemma find_split (sep s : string) (i : nat) :
  find sep s = Some i ->
  s = slice_to i s ++ sep ++ slice_from (i + len sep) s.
Proof.
  revert i; induction s as [|c s IH]; intros i H; rewrite find_unfold in H.
  - destruct (String.prefix sep "") eqn:P; [|discriminate].
    injection H as <-. simpl. now apply prefix_split in P.
  - destruct (String.prefix sep (String c s)) eqn:P.
    + injection H as <-. simpl slice_to. now apply prefix_split in P.
    + destruct (find sep s) as [j|] eqn:F; [|discriminate].
      injection H as <-. simpl. f_equal. now apply IH.
Qed.

Lemma prefix_len (p s : string) : String.prefix p s = true -> len p <= len s.
Proof.
  intros H. apply prefix_split in H. apply (f_equal len) in H.
  rewrite len_app in H. lia.
Qed.

Lemma find_bound (sep s : string) (i : nat) :
  find sep s = Some i -> i + len sep <= len s.
Proof.
  revert i; induction s as [|c s IH]; intros i H; rewrite find_unfold in H.
  - destruct (String.prefix sep "") eqn:P; [|discriminate].
    injection H as <-. now apply prefix_len in P.
  - destruct (String.prefix sep (String c s)) eqn:P.
    + injection H as <-. now apply prefix_len in P.
    + destruct (find sep s) as [j|] eqn:F; [|discriminate].
      injection H as <-. specialize (IH j eq_refl).
      change (len (String c s)) with (S (len s)). lia.
Qed.

(** *** Separators of one character *)

Section OneChar.

Variable c : ascii.

Let sep : string := String c "".

Lemma find_char_cons (x : ascii) (s : string) :
  find sep (String x s) =
  if Ascii.eqb x c then Some 0 else option_map S (find sep s).
Proof.
  rewrite find_unfold. unfold sep. simpl String.prefix.
  destruct (ascii_dec c x) as [->|N].
  - rewrite Ascii.eqb_refl. now destruct s.
  - destruct (Ascii.eqb x c) eqn:E; [|reflexivity].
    apply Ascii.eqb_eq in E. congruence.
Qed.

Lemma contains_char_cons (x : ascii) (s : string) :
  contains (String x s) sep = Ascii.eqb x c || contains s sep.
Proof.
  unfold contains. rewrite find_char_cons.
  destruct (Ascii.eqb x c); [reflexivity|].
  now destruct (find sep s).
Qed.

Lemma contains_char_app (a b : string) :
  contains (a ++ b) sep = contains a sep || contains b sep.
Proof.
  induction a as [|x a IH]; [reflexivity|].
  change (String x a ++ b) with (String x (a ++ b)).
  rewrite !contains_char_cons, IH. now rewrite orb_assoc.
Qed.

(** The first occurrence of [c] in [a ++ c ++ b] is at [len a] when [a]
    holds no [c]. *)
Lemma find_char_app (a b : string) :
  contains a sep = false ->
  find sep (a ++ String c b) = Some (len a).
Proof.
  induction a as [|x a IH]; intros H.
  - cbn [append]. rewrite find_char_cons. now rewrite Ascii.eqb_refl.
  - change (String x a ++ String c b) with (String x (a ++ String c b)).
    rewrite contains_char_cons in H. apply orb_false_iff in H as [E H].
    rewrite find_char_cons, E, (IH H). reflexivity.
Qed.

(** The text before the first [c] holds no [c]. *)
Lemma find_char_before (s : string) (i : nat) :
  find sep s = Some i ->
  contains (slice_to i s) sep = false.
Proof.
  revert i; induction s as [|x s IH]; intros i H.
  - rewrite find_unfold in H. simpl in H. discriminate.
  - rewrite find_char_cons in H. destruct (Ascii.eqb x c) eqn:E.
    + now injection H as <-.
    + destruct (find sep s) as [j|]; [|discriminate].
      injection H as <-. cbn [slice_to]. rewrite contains_char_cons, E.
      now apply IH.
Qed.

End OneChar.

Lemma contains_false_find (s sub : string) :
  contains s sub = false -> find sub s = None.
Proof. unfold contains. now destruct (find sub s). Qed.

(** *** [split] and [join] *)

Lemma split_n_nonempty (n : nat) (sep s : string) : split_n n sep s <> [].
Proof. destruct n; simpl; [|destruct (find sep s)]; discriminate. Qed.

Lemma join_cons (sep x : string) (l : list string) :
  l <> [] -> join sep (x :: l) = x ++ sep ++ join sep l.
Proof. now destruct l. Qed.

Lemma join_split_n (n : nat) (sep s : string) : join sep (split_n n sep s) = s.
Proof.
  revert s; induction n as [|n IH]; intros s; [reflexivity|].
  cbn [split_n]. destruct (find sep s) as [i|] eqn:F; [|reflexivity].
  rewrite join_cons by apply split_n_nonempty.
  rewrite IH. symmetry. now apply find_split.
Qed.

Lemma contains_char_join (c : ascii) (l : list string) :
  contains (join "," l) (String c "") = false ->
  Forall (fun t => contains t (String c "") = false) l.
Proof.
  induction l as [|x l IH]; intros H; [constructor|].
  destruct l as [|y l]; [now repeat constructor|].
  rewrite join_cons in H by discriminate.
  rewrite !contains_char_app in H.
  apply orb_false_iff in H as [Hx H]. apply orb_false_iff in H as [_ H].
  constructor; auto.
Qed.

Lemma join_no_char (c : ascii) (l : list string) :
  Ascii.eqb "," c = false ->
  Forall (fun t => contains t (String c "") = false) l ->
  contains (join "," l) (String c "") = false.
Proof.
  intros Hc. induction 1 as [|x l Hx Hl IH]; [reflexivity|].
  destruct l as [|y l]; [exact Hx|].
  rewrite join_cons by discriminate. rewrite !contains_char_app, Hx, IH.
  now rewrite contains_char_cons, Hc.
Qed.

(** No piece of a full split holds the separator. *)
Lemma split_n_pieces (c : ascii) (n : nat) (s : string) :
  len s <= n ->
  Forall (fun t => contains t (String c "") = false) (split_n n (String c "") s).
Proof.
  revert s; induction n as [|n IH]; intros s L.
  - destruct s; [now repeat constructor | inversion L].
  - cbn [split_n]. destruct (find (String c "") s) as [i|] eqn:F.
    + constructor; [now apply find_char_before|].
      apply IH. rewrite len_slice_from. apply find_bound in F.
      change (len (String c "")) with 1 in *. lia.
    + repeat constructor. unfold contains. now rewrite F.
Qed.

(** Joining pieces that hold no comma and splitting again gives the pieces. *)
Lemma split_n_join (l : list string) (n : nat) :
  l <> [] ->
  Forall (fun t => contains t "," = false) l ->
  List.length l <= S n ->
  split_n n "," (join "," l) = l.
Proof.
  revert n; induction l as [|x l IH]; intros n N F L; [congruence|].
  inversion F as [|? ? Hx Hl]; subst.
  destruct l as [|y l].
  - cbn [join]. destruct n; [reflexivity|].
    cbn [split_n]. now rewrite (contains_false_find _ _ Hx).
  - rewrite join_cons by discriminate.
    destruct n as [|n]; [simpl in L; lia|].
    cbn [split_n]. change ("," ++ join "," (y :: l)) with (String "," (join "," (y :: l))).
    rewrite (find_char_app _ _ _ Hx), slice_to_app, slice_from_app.
    cbn [len String.length slice_from]. f_equal.
    apply IH; [discriminate | assumption | simpl in *; lia].
Qed.

Lemma len_join (l : list string) : List.length l <= S (len (join "," l)).
Proof.
  induction l as [|x l IH]; [simpl; lia|].
  destruct l as [|y l]; [simpl; lia|].
  rewrite join_cons by discriminate. rewrite !len_app.
  change (len ",") with 1. simpl List.length in *. lia.
Qed.

Lemma split_join (l : list string) :
  l <> [] ->
  Forall (fun t => contains t "," = false) l ->
  split (join "," l) "," None = l.
Proof. intros N F. unfold split. apply split_n_join; auto using len_join. Qed.

End Strings.

(** ** The blocks of [__parse_from_path] in closed form *)

Section Blocks.

#[local] Arguments split : simpl never.
#[local] Arguments find : simpl never.

Lemma split1 (s sep : string) :
  split s sep (Some 1) =
  match find sep s with
  | Some i => [slice_to i s; slice_from (i + len sep) s]
  | None => [s]
  end.
Proof. unfold split; simpl. now destruct (find sep s). Qed.

Lemma parse_scheme_eq (self : DataUrl) (e0 : string) (tl : list string) :
  parse_scheme self (e0 :: tl) =
  Ok (match find ":" e0 with
      | Some i =>
          if Nat.leb i 2 then (set_scheme self None, e0)
          else (set_scheme self (Some (slice_to i e0)), slice_from (i + 1) e0)
      | None => (set_scheme self None, e0)
      end).
Proof.
  unfold parse_scheme. cbn [list_getitem nth_error bind]. rewrite split1.
  destruct (find ":" e0) as [i|] eqn:F; cbn; [|reflexivity].
  rewrite len_slice_to by (apply find_bound in F; lia).
  now destruct (Nat.leb i 2).
Qed.

Lemma get_in_range (s : string) (i : nat) :
  i < len s -> exists c, String.get i s = Some c.
Proof.
  revert i; induction s as [|d s IH]; intros i H; [inversion H|].
  destruct i as [|i]; simpl; [now exists d|].
  apply IH. change (len (String d s)) with (S (len s)) in H. lia.
Qed.

Lemma parse_file_path_eq (fp : string) :
  parse_file_path fp = Ok (file_path_of fp).
Proof.
  unfold parse_file_path, file_path_of. destruct (startswith fp "///"); [|reflexivity].
  cbv zeta. destruct (Nat.ltb 2 (len (slice_from 3 fp))) eqn:L; [|reflexivity].
  apply Nat.ltb_lt in L.
  destruct (get_in_range (slice_from 3 fp) 1) as [c1 G1]; [lia|].
  destruct (get_in_range (slice_from 3 fp) 2) as [c2 G2]; [lia|].
  unfold getitem, char_is. rewrite G1, G2. cbn.
  destruct (Ascii.eqb c1 ":"); cbn; [reflexivity|].
  now destruct (Ascii.eqb c2 ":").
Qed.

Lemma str_to_slice_raises (t : string) (e : exn) :
  str_to_slice t = Raise e -> e = ValueError.
Proof.
  unfold str_to_slice, int.
  destruct (t =? "..."); [discriminate|]. destruct (t =? ":"); [discriminate|].
  destruct (lstrip t) as [|c r]; cbn.
  - intros H; now injection H.
  - destruct (Ascii.eqb c "-"); [|destruct (Ascii.eqb c "+")];
      match goal with
      | |- context [scan_digits ?b ?a ?x] =>
          destruct (scan_digits b a x) as [[v rest]|]; cbn;
          [destruct (lstrip rest); cbn|]
      end; intros H; try discriminate; now injection H.
Qed.

Lemma tuple_of_raises {A B : Type} (f : A -> result B) (l : list A) (e : exn) :
  tuple_of f l = Raise e -> exists x, In x l /\ f x = Raise e.
Proof.
  induction l as [|x l IH]; simpl; [discriminate|].
  destruct (f x) as [y|e'] eqn:Fx.
  - destruct (tuple_of f l) as [ys|e'']; [discriminate|].
    intros H; injection H as <-. destruct (IH eq_refl) as (x' & I & E).
    exists x'; auto.
  - intros H; injection H as <-. exists x; auto.
Qed.

Lemma tuple_of_ok {A B : Type} (f : A -> result B) (l : list A) (ys : list B) :
  tuple_of f l = Ok ys -> forall x, In x l -> exists y, f x = Ok y.
Proof.
  revert ys; induction l as [|x l IH]; simpl; intros ys H x' I; [contradiction|].
  destruct (f x) as [y|e] eqn:Fx; [|discriminate].
  destruct (tuple_of f l) as [zs|e]; [|discriminate].
  destruct I as [<-|I]; [now exists y | now apply (IH zs)].
Qed.

Lemma parse_selector_eq (self : DataUrl) (e0 sel : string) :
  parse_selector self [e0; sel] = Ok (selector_flow self sel).
Proof.
  unfold parse_selector, selector_flow.
  cbn [List.length Nat.eqb list_getitem nth_error bind]. rewrite split1.
  destruct (find "[" sel) as [i|]; cbn; [|reflexivity].
  rewrite split1.
  destruct (find "]" (slice_from (i + 1) sel)) as [j|]; cbn; [|reflexivity].
  destruct (slice_from (j + 1) (slice_from (i + 1) sel) =? ""); cbn; [|reflexivity].
  destruct (tuple_of str_to_slice _) as [t|e] eqn:T; cbn; [reflexivity|].
  apply tuple_of_raises in T. destruct T as (x & _ & T).
  apply str_to_slice_raises in T. now subst e.
Qed.

Lemma from_path_eq (path : string) :
  from_path path =
  Ok (finish (match selector_part path with
              | None => Next (before_selector path)
              | Some sel => selector_flow (before_selector path) sel
              end)).
Proof.
  unfold from_path, __init__, __parse_from_path, before_selector, selector_part,
    file_part, scheme_part.
  cbn [assert is_None bind]. rewrite split1.
  destruct (find "::" path) as [i|]; rewrite !parse_scheme_eq;
    cbn [bind]; change (len "::") with 2.
  - destruct (find ":" (slice_to i path)) as [j|]; [destruct (Nat.leb j 2)|];
      rewrite parse_file_path_eq; cbn [bind]; rewrite parse_selector_eq;
      cbn [bind];
      match goal with
      | |- match selector_flow ?a ?b with _ => _ end
           = Ok (finish (selector_flow ?c ?b)) =>
          change c with a; now destruct (selector_flow a b)
      end.
  - destruct (find ":" path) as [j|]; [destruct (Nat.leb j 2)|];
      rewrite parse_file_path_eq; reflexivity.
Qed.

End Blocks.

(** ** The selector block and malformed selectors *)

Section Selector.

Lemma selector_flow_bracket (self : DataUrl) (dp sl : string) :
  contains dp "[" = false ->
  selector_flow self (dp ++ "[" ++ sl) =
  let self := set_data_path self (data_path_of dp) in
  match find "]" sl with
  | None => Return (set_is_valid self false)
  | Some j =>
      if negb (slice_from (j + 1) sl =? "") then Return (set_is_valid self false)
      else
        match tuple_of str_to_slice (split (slice_to j sl) "," None) with
        | Ok t => Next (set_data_slice self (Some t))
        | Raise _ => Return (set_is_valid self false)
        end
  end.
Proof.
  intros H. unfold selector_flow.
  change (dp ++ "[" ++ sl) with (dp ++ String "[" sl).
  rewrite (find_char_app _ _ _ H), slice_to_app, slice_from_app.
  reflexivity.
Qed.

Lemma tuple_of_fails {A B : Type} (f : A -> result B) (l : list A) (x : A) (e : exn) :
  In x l -> f x = Raise e -> exists e', tuple_of f l = Raise e'.
Proof.
  induction l as [|y l IH]; intros I E; [contradiction|].
  cbn [tuple_of]. destruct (f y) as [b|e1] eqn:Fy; [|now exists e1].
  destruct I as [->|I]; [congruence|].
  destruct (IH I E) as [e' ->]. now exists e'.
Qed.

Lemma bad_term_raises (t : string) : bad_term t -> str_to_slice t = Raise ValueError.
Proof.
  intros (N1 & N2 & E). unfold str_to_slice.
  destruct (String.eqb_spec t "..."); [contradiction|].
  destruct (String.eqb_spec t ":"); [contradiction|].
  now rewrite E.
Qed.

Lemma raises_bad_term (t : string) (e : exn) : str_to_slice t = Raise e -> bad_term t.
Proof.
  intros H. pose proof (str_to_slice_raises _ _ H) as ->.
  unfold str_to_slice in H.
  destruct (String.eqb_spec t "..."); [discriminate|].
  destruct (String.eqb_spec t ":"); [discriminate|].
  repeat split; auto.
  destruct (int t); cbn in H; [discriminate | congruence].
Qed.

Lemma terms_wf_commas (terms : list string) :
  terms_wf terms -> Forall (fun t => contains t "," = false) terms.
Proof. unfold terms_wf. apply Forall_impl. now intros t [H _]. Qed.

Lemma terms_wf_brackets (terms : list string) :
  terms_wf terms -> Forall (fun t => contains t "]" = false) terms.
Proof. unfold terms_wf. apply Forall_impl. now intros t [_ H]. Qed.

(** A selector whose slice has a term that cannot be read. *)
Lemma selector_flow_bad_term (self : DataUrl) (dp : string) (terms : list string)
      (t : string) :
  contains dp "[" = false -> terms_wf terms -> In t terms -> bad_term t ->
  selector_flow self (dp ++ "[" ++ join "," terms ++ "]") =
  Return (set_is_valid (set_data_path self (data_path_of dp)) false).
Proof.
  intros Hdp W I B. rewrite (selector_flow_bracket _ _ _ Hdp). cbv zeta.
  assert (C : contains (join "," terms) "]" = false)
    by (apply join_no_char; [reflexivity | now apply terms_wf_brackets]).
  change (join "," terms ++ "]") with (join "," terms ++ String "]" "").
  rewrite (find_char_app _ _ _ C), slice_to_app, slice_from_app.
  cbn [slice_from String.eqb negb].
  rewrite split_join; [| intros ->; contradiction | now apply terms_wf_commas].
  destruct (tuple_of_fails str_to_slice terms t ValueError I (bad_term_raises _ B))
    as [e ->].
  reflexivity.
Qed.

(** Soundness: a malformed selector makes the block return, with
    [__is_valid] false. *)
Lemma malformed_selector_return (self : DataUrl) (sel : string) :
  malformed_selector sel ->
  exists dp, selector_flow self sel = Return (set_is_valid (set_data_path self dp) false).
Proof.
  intros [dp sl Hdp Hsl | dp body rest Hdp Hb Hr | dp terms t Hdp W I B].
  - exists (data_path_of dp). rewrite (selector_flow_bracket _ _ _ Hdp).
    cbv zeta. now rewrite (contains_false_find _ _ Hsl).
  - exists (data_path_of dp). rewrite (selector_flow_bracket _ _ _ Hdp).
    cbv zeta. change (body ++ "]" ++ rest) with (body ++ String "]" rest).
    rewrite (find_char_app _ _ _ Hb), slice_from_app. cbn [slice_from].
    destruct (String.eqb_spec rest ""); [contradiction | reflexivity].
  - exists (data_path_of dp). now apply (selector_flow_bad_term self dp terms t).
Qed.

(** Completeness: the block returns only on a malformed selector. *)
Lemma selector_flow_return (self u : DataUrl) (sel : string) :
  selector_flow self sel = Return u ->
  malformed_selector sel /\
  exists dp, u = set_is_valid (set_data_path self dp) false.
Proof.
  unfold selector_flow.
  destruct (find "[" sel) as [i|] eqn:Fi; [|discriminate].
  pose proof (find_split _ _ _ Fi) as E. pose proof (find_char_before _ _ _ Fi) as Hdp.
  change (len "[") with 1 in E.
  set (dp := slice_to i sel) in *. set (sl := slice_from (i + 1) sel) in *.
  cbv zeta.
  destruct (find "]" sl) as [j|] eqn:Fj.
  - pose proof (find_split _ _ _ Fj) as E'. pose proof (find_char_before _ _ _ Fj) as Hb.
    change (len "]") with 1 in E'.
    set (body := slice_to j sl) in *. set (rest := slice_from (j + 1) sl) in *.
    destruct (String.eqb_spec rest "") as [R|R]; cbn [negb].
    + destruct (tuple_of str_to_slice (split body "," None)) as [t|e] eqn:T;
        [discriminate|].
      intros H; injection H as <-. split; [|now eexists].
      apply tuple_of_raises in T. destruct T as (t & I & T).
      rewrite E, E', R.
      rewrite <- (join_split_n (len body) "," body) at 1.
      apply (BadTerm dp _ t); auto.
      * unfold terms_wf. apply Forall_forall. intros x Hx. split.
        -- pose proof (split_n_pieces "," (len body) body (le_n _)) as P.
           rewrite Forall_forall in P. now apply P.
        -- assert (P : Forall (fun t => contains t "]" = false)
                              (split_n (len body) "," body)).
           { apply contains_char_join. now rewrite join_split_n. }
           rewrite Forall_forall in P. now apply P.
      * now apply raises_bad_term in T.
    + intros H; injection H as <-. split; [|now eexists].
      rewrite E, E'. now apply Trailing.
  - intros H; injection H as <-. split; [|now eexists].
    rewrite E. apply Unterminated; auto. unfold contains. now rewrite Fj.
Qed.

Lemma selector_flow_next (self u : DataUrl) (sel : string) :
  selector_flow self sel = Next u ->
  exists dp ds, u = set_data_slice (set_data_path self dp) ds.
Proof.
  unfold selector_flow.
  destruct (find "[" sel) as [i|].
  - cbv zeta. destruct (find "]" _) as [j|]; [|discriminate].
    destruct (negb _); [discriminate|].
    destruct (tuple_of _ _) as [t|e]; [|discriminate].
    intros H; injection H as <-. now eexists _, _.
  - intros H; injection H as <-. now exists (data_path_of sel), (__data_slice self).
Qed.

End Selector.

(** ** Construction: what every instance satisfies *)

Section Construction.

Lemma check_validity_eq (self : DataUrl) :
  __check_validity self = set_is_valid self (__is_valid (__check_validity self)).
Proof.
  unfold __check_validity.
  destruct (__file_path self) as [f|]; [|reflexivity].
  destruct (f =? ""); [reflexivity|].
  destruct (__scheme self) as [sc|]; [|reflexivity].
  destruct (sc =? "fabio"); [reflexivity|].
  now destruct (sc =? "silx").
Qed.

Lemma check_validity_idem (self : DataUrl) :
  __check_validity (__check_validity self) = __check_validity self.
Proof.
  rewrite (check_validity_eq self) at 1 2. unfold __check_validity.
  cbn [set_is_valid __file_path __scheme __data_path __data_slice __is_valid __path].
  destruct (__file_path self) as [f|]; [|reflexivity].
  destruct (f =? ""); [reflexivity|].
  destruct (__scheme self) as [sc|]; [|reflexivity].
  destruct (sc =? "fabio"); [reflexivity|].
  now destruct (sc =? "silx").
Qed.

(** The validity check under the scheme "silx". *)
Lemma check_validity_silx (self : DataUrl) (f : string) :
  __file_path self = Some f -> f <> "" -> __scheme self = Some "silx" ->
  __is_valid (__check_validity self) = true <->
  (__data_slice self = None \/ __data_path self <> None).
Proof.
  intros Hf Nf Hs. unfold __check_validity. rewrite Hf, Hs.
  destruct (String.eqb_spec f ""); [contradiction|].
  cbn. destruct (__data_path self), (__data_slice self); cbn;
    intuition (discriminate || congruence).
Qed.

(** The validity check under a scheme it does not know. *)
Lemma check_validity_unrecognized (self : DataUrl) (name : string) :
  __scheme self = Some name -> name <> "silx" -> name <> "fabio" ->
  __is_valid (__check_validity self) = false.
Proof.
  intros Hs N1 N2. unfold __check_validity. rewrite Hs.
  destruct (__file_path self) as [f|]; [|reflexivity].
  destruct (f =? ""); [reflexivity|].
  destruct (String.eqb_spec name "fabio"); [contradiction|].
  destruct (String.eqb_spec name "silx"); [contradiction|].
  reflexivity.
Qed.

Lemma from_path_total (path : string) : exists u, from_path path = Ok u.
Proof. rewrite from_path_eq. now eexists. Qed.

(** The attributes that the selector block and the validity check leave
    alone. *)
Lemma from_path_inv (path : string) (u : DataUrl) :
  from_path path = Ok u ->
  __path u = Some path /\
  __file_path u = Some (file_path_of (file_part path)) /\
  __scheme u = scheme_part path.
Proof.
  rewrite from_path_eq. intros H; injection H as <-.
  destruct (selector_part path) as [sel|].
  - destruct (selector_flow (before_selector path) sel) as [v|v] eqn:F.
    + apply selector_flow_next in F. destruct F as (dp & ds & ->).
      cbn [finish]. rewrite check_validity_eq. now repeat split.
    + apply selector_flow_return in F. destruct F as (_ & dp & ->).
      now repeat split.
  - cbn [finish]. rewrite check_validity_eq. now repeat split.
Qed.

(** Parsing ends in the validity check, or it stopped at a malformed
    selector. *)
Lemma from_path_end (path : string) (u : DataUrl) :
  from_path path = Ok u ->
  u = __check_validity u \/
  (malformed path /\ __is_valid u = false /\ __data_slice u = None).
Proof.
  rewrite from_path_eq. intros H; injection H as <-.
  destruct (selector_part path) as [sel|] eqn:S.
  - destruct (selector_flow (before_selector path) sel) as [v|v] eqn:F.
    + left. cbn [finish]. now rewrite check_validity_idem.
    + right. apply selector_flow_return in F. destruct F as (M & dp & ->).
      split; [now exists sel | now split].
  - left. cbn [finish]. now rewrite check_validity_idem.
Qed.

(** A malformed selector stops the parsing: the instance is not valid, its
    slice is [None], its data path is the text before the bracket. *)
Lemma malformed_stops (path : string) :
  malformed path ->
  exists u, from_path path = Ok u /\ __is_valid u = false /\ __data_slice u = None.
Proof.
  intros (sel & S & M). rewrite from_path_eq, S.
  destruct (malformed_selector_return (before_selector path) sel M) as [dp ->].
  eexists; split; [reflexivity|]. now split.
Qed.

Lemma init_path (path : string) (fp dp : option string)
      (ds : option (list slice_item)) (sc : option string) (u : DataUrl) :
  __init__ (Some path) fp dp ds sc = Ok u -> from_path path = Ok u.
Proof.
  unfold from_path, __init__.
  destruct fp; [discriminate|]. destruct dp; [discriminate|].
  destruct ds; [discriminate|]. destruct sc; [discriminate|].
  auto.
Qed.

Lemma init_components (fp dp : option string) (ds : option (list slice_item))
      (sc : option string) :
  __init__ None fp dp ds sc = Ok (__check_validity (mkDataUrl false fp dp ds sc None)).
Proof. reflexivity. Qed.

(** Every instance went through the validity check, unless it was parsed
    from a path with a malformed selector. *)
Lemma init_end (p fp dp : option string) (ds : option (list slice_item))
      (sc : option string) (u : DataUrl) :
  __init__ p fp dp ds sc = Ok u ->
  u = __check_validity u \/
  (exists path, p = Some path /\ malformed path /\ __is_valid u = false).
Proof.
  destruct p as [path|]; intros H.
  - apply init_path in H. destruct (from_path_end _ _ H) as [E|(M & V & _)]; auto.
    right. now exists path.
  - rewrite init_components in H. injection H as <-. left.
    now rewrite check_validity_idem.
Qed.

End Construction.

(** ** The first segment and the file part *)

Section FilePart.

Lemma elements_first (path : string) :
  exists tl, split path "::" (Some 1) = first_segment path :: tl.
Proof.
  rewrite split1. unfold first_segment.
  destruct (find "::" path); now eexists.
Qed.

(** A first segment with a colon among its first three characters does not
    start with "///". *)
Lemma prefix_cons (c x : ascii) (p s : string) :
  String.prefix (String c p) (String x s) = Ascii.eqb c x && String.prefix p s.
Proof.
  cbn [String.prefix]. destruct (ascii_dec c x) as [->|N].
  - now rewrite Ascii.eqb_refl.
  - destruct (Ascii.eqb_spec c x); [contradiction | reflexivity].
Qed.

Lemma short_token_not_absolute (tok rest : string) :
  len tok <= 2 -> startswith (tok ++ ":" ++ rest) "///" = false.
Proof.
  intros L. unfold startswith.
  destruct tok as [|a [|b [|c tok]]]; cbn [append]; rewrite ?prefix_cons.
  - reflexivity.
  - now destruct (Ascii.eqb "/" a).
  - destruct (Ascii.eqb "/" a); [|reflexivity]. now destruct (Ascii.eqb "/" b).
  - cbn in L. lia.
Qed.

(** The file part in terms of the first segment. *)
Lemma file_part_eq (path : string) :
  file_part path =
  let e0 := first_segment path in
  match find ":" e0 with
  | Some i => if Nat.leb i 2 then e0 else slice_from (i + 1) e0
  | None => e0
  end.
Proof.
  unfold file_part. destruct (elements_first path) as [tl ->].
  rewrite parse_scheme_eq. cbv zeta.
  destruct (find ":" (first_segment path)) as [i|]; [|reflexivity].
  now destruct (Nat.leb i 2).
Qed.

Lemma slice_from_absolute (r : string) : slice_from 3 ("///" ++ r) = r.
Proof. reflexivity. Qed.

Lemma startswith_absolute (r : string) : startswith ("///" ++ r) "///" = true.
Proof. apply prefix_app. Qed.

End FilePart.

(** ** Properties of [DataUrl] *)

(** C1. Round trip through [path()]: for a [DataUrl] [u] parsed from a string
    that is accepted as valid, parsing [u.path()] gives an instance with the
    same scheme, file path, data path and data slice as [u]. *)
Theorem path_roundtrip (s : string) (u : DataUrl) :
  from_path s = Ok u ->
  is_valid u = true ->
  exists p u',
    path u = Ok p /\ from_path p = Ok u' /\
    scheme u' = scheme u /\ file_path u' = file_path u /\
    data_path u' = data_path u /\ data_slice u' = data_slice u.
Proof.
  intros H V. destruct (from_path_inv _ _ H) as (P & _).
  exists s, u. unfold path. rewrite P. now repeat split.
Qed.

Lemma path_roundtrip_witness :
  exists u,
    from_path "silx:///data/image.h5::/data/dataset[1,5]" = Ok u /\
    is_valid u = true /\
    exists p u',
      path u = Ok p /\ from_path p = Ok u' /\
      scheme u' = scheme u /\ file_path u' = file_path u /\
      data_path u' = data_path u /\ data_slice u' = data_slice u.
Proof.
  eexists. split; [vm_compute; reflexivity|]. split; [reflexivity|].
  apply (path_roundtrip "silx:///data/image.h5::/data/dataset[1,5]");
    vm_compute; reflexivity.
Defined.

(** C2. Parsing "silx:///data/image.h5::/data/dataset[1,5]" gives the scheme
    "silx", the file path "/data/image.h5", the data path "/data/dataset",
    the slice (1, 5) in this order, and a valid instance. *)
Theorem parse_silx_example :
  exists u,
    from_path "silx:///data/image.h5::/data/dataset[1,5]" = Ok u /\
    scheme u = Some "silx" /\
    file_path u = Some "/data/image.h5" /\
    data_path u = Some "/data/dataset" /\
    data_slice u = Some [Int 1; Int 5] /\
    is_valid u = true.
Proof. eexists. split; [vm_compute; reflexivity|]. now repeat split. Qed.

(** C3. A string whose selector is malformed (bracket not closed, characters
    after the closing bracket, or a term that is neither readable by [int]
    nor one of ":" and "...") is parsed without an exception, into an
    instance that is not valid; so is "silx:///f.h5::/d[1,x]". *)
Theorem malformed_selector_invalid :
  (forall path, malformed path ->
     exists u, from_path path = Ok u /\ is_valid u = false) /\
  (exists u, from_path "silx:///f.h5::/d[1,x]" = Ok u /\ is_valid u = false).
Proof.
  split.
  - intros path M. destruct (malformed_stops path M) as (u & H & V & _).
    now exists u.
  - eexists. split; [vm_compute; reflexivity | reflexivity].
Qed.

Lemma malformed_selector_invalid_witness :
  malformed "silx:///f.h5::/d[1,x]" /\
  malformed "silx:///f.h5::/d[1,2" /\
  malformed "silx:///f.h5::/d[1,2]x" /\
  (exists u, from_path "silx:///f.h5::/d[1,x]" = Ok u /\ is_valid u = false) /\
  (exists u, from_path "silx:///f.h5::/d[1,2" = Ok u /\ is_valid u = false) /\
  (exists u, from_path "silx:///f.h5::/d[1,2]x" = Ok u /\ is_valid u = false).
Proof.
  assert (M1 : malformed "silx:///f.h5::/d[1,x]").
  { exists "/d[1,x]". split; [reflexivity|].
    apply (BadTerm "/d" ["1"; "x"] "x").
    - reflexivity.
    - repeat constructor.
    - simpl; auto.
    - repeat split; discriminate || reflexivity. }
  assert (M2 : malformed "silx:///f.h5::/d[1,2").
  { exists "/d[1,2". split; [reflexivity|].
    apply (Unterminated "/d" "1,2"); reflexivity. }
  assert (M3 : malformed "silx:///f.h5::/d[1,2]x").
  { exists "/d[1,2]x". split; [reflexivity|].
    apply (Trailing "/d" "1,2" "x"); reflexivity || discriminate. }
  repeat split; try assumption;
    apply (proj1 malformed_selector_invalid); assumption.
Defined.

(** C4 fails as stated: the instance parsed from "silx:///f.h5::/d[1,x]" has
    the scheme "silx", the file path "/f.h5", the data path "/d" and no
    slice, and it is not valid: parsing stopped at the term "x" before the
    validity check. *)
Lemma silx_validity_counterexample :
  ~ (forall (p fp dp : option string) (ds : option (list slice_item))
            (sc : option string) (u : DataUrl) (f : string),
        __init__ p fp dp ds sc = Ok u ->
        scheme u = Some "silx" ->
        file_path u = Some f -> f <> "" ->
        (is_valid u = true <-> (data_slice u = None \/ data_path u <> None))).
Proof.
  intros C.
  destruct (C (Some "silx:///f.h5::/d[1,x]") None None None None
              (mkDataUrl false (Some "/f.h5") (Some "/d") None (Some "silx")
                         (Some "silx:///f.h5::/d[1,x]"))
              "/f.h5") as [_ B];
    try (vm_compute; reflexivity); try discriminate.
  specialize (B (or_introl eq_refl)). discriminate.
Qed.

(** C4, amended. For every [DataUrl] with the scheme "silx" and a file path
    that is neither [None] nor empty, built from components or parsed from a
    string whose selector is not malformed, [is_valid()] is [True] exactly
    when [data_slice] is [None] or [data_path] is not [None]. *)
Theorem silx_validity (p fp dp : option string) (ds : option (list slice_item))
        (sc : option string) (u : DataUrl) (f : string) :
  __init__ p fp dp ds sc = Ok u ->
  (forall path, p = Some path -> ~ malformed path) ->
  scheme u = Some "silx" ->
  file_path u = Some f -> f <> "" ->
  (is_valid u = true <-> (data_slice u = None \/ data_path u <> None)).
Proof.
  intros H NM S F N.
  destruct (init_end _ _ _ _ _ _ H) as [E|(path & -> & M & _)].
  - unfold is_valid. rewrite E.
    rewrite (check_validity_silx u f F N S).
    unfold data_slice, data_path. rewrite (check_validity_eq u). reflexivity.
  - now destruct (NM path eq_refl).
Qed.

Lemma silx_validity_witness :
  (exists u,
     from_path "silx:///data/image.h5::/data/dataset[1,5]" = Ok u /\
     (is_valid u = true <-> (data_slice u = None \/ data_path u <> None))) /\
  (exists u,
     from_components (Some "/data/image.h5") None (Some [Int 2]) (Some "silx") = Ok u /\
     (is_valid u = true <-> (data_slice u = None \/ data_path u <> None))).
Proof.
  split.
  - eexists. split; [vm_compute; reflexivity|].
    apply (silx_validity (Some "silx:///data/image.h5::/data/dataset[1,5]")
                         None None None None _ "/data/image.h5");
      try (vm_compute; reflexivity); try discriminate.
    intros path E M. injection E as <-.
    destruct (malformed_stops _ M) as (v & P & V & _).
    vm_compute in P. injection P as <-. discriminate.
  - eexists. split; [vm_compute; reflexivity|].
    apply (silx_validity None (Some "/data/image.h5") None (Some [Int 2])
                         (Some "silx") _ "/data/image.h5");
      try (vm_compute; reflexivity); discriminate.
Defined.

(** C5. A [DataUrl] whose scheme is a string other than "silx" and "fabio" is
    never valid, whatever its file path, data path and slice. *)
Theorem unrecognized_scheme_invalid (p fp dp : option string)
        (ds : option (list slice_item)) (sc : option string) (u : DataUrl)
        (name : string) :
  __init__ p fp dp ds sc = Ok u ->
  scheme u = Some name ->
  name <> "silx" -> name <> "fabio" ->
  is_valid u = false.
Proof.
  intros H S N1 N2.
  destruct (init_end _ _ _ _ _ _ H) as [E|(path & _ & _ & V)]; [|exact V].
  unfold is_valid. rewrite E. now apply (check_validity_unrecognized u name).
Qed.

Lemma unrecognized_scheme_invalid_witness :
  (exists u, from_path "http:///data/image.h5::/data" = Ok u /\
             scheme u = Some "http" /\ is_valid u = false) /\
  (exists u, from_components (Some "/data/image.h5") None None (Some "") = Ok u /\
             scheme u = Some "" /\ is_valid u = false).
Proof.
  split.
  - eexists. split; [vm_compute; reflexivity|]. split; [reflexivity|].
    apply (unrecognized_scheme_invalid (Some "http:///data/image.h5::/data")
                                       None None None None _ "http");
      try (vm_compute; reflexivity); discriminate.
  - eexists. split; [vm_compute; reflexivity|]. split; [reflexivity|].
    apply (unrecognized_scheme_invalid None (Some "/data/image.h5") None None
                                       (Some "") _ "");
      try (vm_compute; reflexivity); discriminate.
Defined.

(** C6. When the part of the input before any "::" holds a ":" and the text
    before its first ":" has at most two characters, the parser sets no
    scheme and takes the whole first segment as the file path; "C:/data/"
    gives no scheme, the file path "C:/data/" and an absolute path. *)
Theorem drive_letter_no_scheme :
  (forall path tok rest,
     first_segment path = tok ++ ":" ++ rest ->
     contains tok ":" = false ->
     len tok <= 2 ->
     exists u, from_path path = Ok u /\
               scheme u = None /\ file_path u = Some (first_segment path)) /\
  (exists u, from_path "C:/data/" = Ok u /\
             scheme u = None /\ file_path u = Some "C:/data/" /\
             is_absolute u = Ok true).
Proof.
  split.
  - intros path tok rest E C L.
    destruct (from_path_total path) as [u H]. exists u. split; [exact H|].
    destruct (from_path_inv _ _ H) as (_ & F & S).
    destruct (elements_first path) as [tl El].
    assert (P : parse_scheme new (split path "::" (Some 1)) =
                Ok (set_scheme new None, first_segment path)).
    { rewrite El, parse_scheme_eq, E.
      change (tok ++ ":" ++ rest) with (tok ++ String ":" rest).
      rewrite (find_char_app _ _ _ C).
      apply Nat.leb_le in L. now rewrite L. }
    unfold scheme, file_path. rewrite S, F. unfold scheme_part, file_part.
    rewrite P. split; [reflexivity|].
    unfold file_path_of. rewrite E at 1.
    now rewrite (short_token_not_absolute tok rest L).
  - eexists. split; [vm_compute; reflexivity|]. now repeat split.
Qed.

Lemma drive_letter_no_scheme_witness :
  exists u, from_path "C:/data/image.edf::/scan[2]" = Ok u /\
            scheme u = None /\
            file_path u = Some (first_segment "C:/data/image.edf::/scan[2]").
Proof.
  apply (proj1 drive_letter_no_scheme "C:/data/image.edf::/scan[2]"
               "C" "/data/image.edf");
    [reflexivity | reflexivity | cbn; lia].
Defined.

(** C7. A file part that starts with "///" loses these three characters;
    what is left stays as it is when it is longer than two characters and
    has ":" at index 1 or 2, and gets one "/" in front otherwise.  A file
    part that does not start with "///" is the file path, unchanged. *)
Theorem file_part_to_file_path (path r : string) (u : DataUrl) :
  from_path path = Ok u ->
  (file_part path = "///" ++ r ->
   2 < len r -> char_is r 1 ":" = true \/ char_is r 2 ":" = true ->
   file_path u = Some r) /\
  (file_part path = "///" ++ r ->
   ~ (2 < len r /\ (char_is r 1 ":" = true \/ char_is r 2 ":" = true)) ->
   file_path u = Some ("/" ++ r)) /\
  (startswith (file_part path) "///" = false ->
   file_path u = Some (file_part path)).
Proof.
  intros H. destruct (from_path_inv _ _ H) as (_ & F & _).
  unfold file_path. rewrite F. unfold file_path_of. repeat split.
  - intros E L C. rewrite E, startswith_absolute, slice_from_absolute. cbv zeta.
    apply Nat.ltb_lt in L. rewrite L.
    apply orb_true_iff in C. now rewrite C.
  - intros E N. rewrite E, startswith_absolute, slice_from_absolute. cbv zeta.
    destruct (Nat.ltb 2 (len r) && (char_is r 1 ":" || char_is r 2 ":")) eqn:B;
      [|reflexivity].
    exfalso. apply N. apply andb_true_iff in B as [L C].
    apply Nat.ltb_lt in L. apply orb_true_iff in C. auto.
  - intros E. now rewrite E.
Qed.

Lemma file_part_to_file_path_witness :
  (exists u, from_path "fabio:///C:/data/image.edf::[2]" = Ok u /\
             file_path u = Some "C:/data/image.edf") /\
  (exists u, from_path "silx:///data/image.h5::/data" = Ok u /\
             file_path u = Some "/data/image.h5") /\
  (exists u, from_path "silx:./image.h5" = Ok u /\
             file_path u = Some "./image.h5").
Proof.
  repeat split.
  - destruct (from_path_total "fabio:///C:/data/image.edf::[2]") as [u H].
    exists u. split; [exact H|].
    apply (file_part_to_file_path _ "C:/data/image.edf" u H);
      [reflexivity | cbn; lia | left; reflexivity].
  - destruct (from_path_total "silx:///data/image.h5::/data") as [u H].
    exists u. split; [exact H|].
    apply (file_part_to_file_path _ "data/image.h5" u H); [reflexivity|].
    intros [_ [C|C]]; discriminate C.
  - destruct (from_path_total "silx:./image.h5") as [u H].
    exists u. split; [exact H|].
    apply (file_part_to_file_path _ "" u H). reflexivity.
Defined.

(** C8. When parsing stops at a slice term that [int] rejects, [data_slice()]
    is [None], not the terms read so far, and [data_path()] is the text
    before the opening bracket ([None] when that text is empty). *)
Theorem bad_term_no_partial_slice (path dp : string) (terms : list string)
        (t : string) :
  selector_part path = Some (dp ++ "[" ++ join "," terms ++ "]") ->
  contains dp "[" = false ->
  terms_wf terms ->
  In t terms ->
  bad_term t ->
  exists u, from_path path = Ok u /\
            data_slice u = None /\
            data_path u = data_path_of dp /\
            is_valid u = false.
Proof.
  intros S Hdp W I B. rewrite from_path_eq, S.
  rewrite (selector_flow_bad_term _ dp terms t Hdp W I B).
  eexists. split; [reflexivity|]. now repeat split.
Qed.

Lemma bad_term_no_partial_slice_witness :
  exists u, from_path "silx:///f.h5::/d[1,:,x,4]" = Ok u /\
            data_slice u = None /\
            data_path u = Some "/d" /\
            is_valid u = false.
Proof.
  apply (bad_term_no_partial_slice "silx:///f.h5::/d[1,:,x,4]" "/d"
                                   ["1"; ":"; "x"; "4"] "x").
  - reflexivity.
  - reflexivity.
  - repeat constructor.
  - simpl; auto.
  - repeat split; discriminate || reflexivity.
Defined.

(** C9. Parsing is total: construction from a path returns an instance for
    every string, and the file path of that instance is a string, never
    [None]; the empty string gives the file path "" and an instance that is
    not valid. *)
Theorem parse_total :
  (forall path, exists u f, from_path path = Ok u /\ file_path u = Some f) /\
  (exists u, from_path "" = Ok u /\ file_path u = Some "" /\ is_valid u = false).
Proof.
  split.
  - intros path. destruct (from_path_total path) as [u H].
    destruct (from_path_inv _ _ H) as (_ & F & _).
    exists u, (file_path_of (file_part path)). now split.
  - eexists. split; [vm_compute; reflexivity|]. now split.
Qed.

(** C10. On an instance built from components with [file_path = None],
    [is_absolute()] raises (the length of [None] is taken), and so does
    [path()] whenever the scheme is not [None]. *)
Theorem is_absolute_raises_without_file_path :
  (forall dp ds sc, exists u,
      from_components None dp ds sc = Ok u /\ is_absolute u = Raise TypeError) /\
  (forall dp ds name, exists u,
      from_components None dp ds (Some name) = Ok u /\ path u = Raise TypeError).
Proof.
  split.
  - intros dp ds sc. eexists. split; reflexivity.
  - intros dp ds name. eexists. split; [reflexivity|].
    unfold path. cbn.
    destruct ds as [l|]; [|reflexivity].
    destruct (tuple_of slice_to_string l) as [items|e] eqn:T; cbn; [reflexivity|].
    apply tuple_of_raises in T. destruct T as (x & _ & T).
    destruct x; cbn in T; congruence.
Qed.

(** ** Numerals, the serializer and the way back *)





Section Numerals.

Lemma forall_chars_app (P : ascii -> bool) (a b : string) :
  forall_chars P (a ++ b) = forall_chars P a && forall_chars P b.
Proof. induction a as [|c a IH]; cbn; [reflexivity | now rewrite IH, andb_assoc]. Qed.




Lemma str_nonempty (z : Z) : str z <> "".
Proof.
  unfold str. destruct (Z.to_int z) as [d|d]; cbn [NilZero.string_of_int];
    [|discriminate].
  unfold NilZero.string_of_uint. destruct d; discriminate.
Qed.


End Numerals.

Section Items.


Lemma slice_to_string_eq (x : slice_item) :
  x <> Other -> slice_to_string x = Ok (item_string x).
Proof. destruct x; intros N; try reflexivity. congruence. Qed.

Lemma tuple_of_slice_to_string (l : list slice_item) :
  ~ In Other l -> tuple_of slice_to_string l = Ok (map item_string l).
Proof.
  induction l as [|x l IH]; intros N; [reflexivity|].
  cbn [tuple_of map]. rewrite slice_to_string_eq by (intros ->; apply N; now left).
  rewrite IH; [reflexivity|]. intros I. apply N. now right.
Qed.



End Items.

Section Serializer.

Lemma append_nil_r (s : string) : s ++ "" = s.
Proof. induction s as [|c s IH]; cbn; [reflexivity | now rewrite IH]. Qed.

Lemma append_assoc (a b c : string) : (a ++ b) ++ c = a ++ b ++ c.
Proof. induction a as [|x a IH]; cbn; [reflexivity | now rewrite IH]. Qed.

Lemma built_eq (fp dp : option string) (ds : option (list slice_item))
      (sc : option string) :
  from_components fp dp ds sc = Ok (built fp dp ds sc).
Proof. reflexivity. Qed.

Lemma built_fields (fp dp : option string) (ds : option (list slice_item))
      (sc : option string) :
  built fp dp ds sc = mkDataUrl (__is_valid (built fp dp ds sc)) fp dp ds sc None.
Proof. unfold built. now rewrite check_validity_eq at 1. Qed.

(** [is_absolute] without its length tests. *)
Lemma is_absolute_eq (u : DataUrl) (f : string) :
  file_path u = Some f -> is_absolute u = Ok (absolute f).
Proof.
  intros F. unfold is_absolute. rewrite F. unfold absolute, char_is, getitem.
  destruct f as [|a [|b [|c f]]]; cbn.
  - reflexivity.
  - destruct (Ascii.eqb a "/"); reflexivity.
  - destruct (Ascii.eqb a "/"); [reflexivity|]. cbn.
    destruct (Ascii.eqb b ":"); reflexivity.
  - destruct (Ascii.eqb a "/"); [reflexivity|]. cbn.
    destruct (Ascii.eqb b ":"); [reflexivity|]. cbn.
    destruct (Ascii.eqb c ":"); reflexivity.
Qed.

Lemma path_built (fp : string) (dp : option string) (l : option (list slice_item))
      (sc : option string) :
  (forall ds, l = Some ds -> ~ In Other ds) ->
  path (built (Some fp) dp l sc) = Ok (serialized fp dp l sc).
Proof.
  intros N. unfold path. rewrite built_fields.
  cbn [__path __file_path __data_path __data_slice __scheme append].
  assert (S : (match l with
               | Some ds =>
                   items <- tuple_of slice_to_string ds ;;
                   Ok (match dp with Some d => d | None => "" end
                       ++ "[" ++ join "," items ++ "]")
               | None => Ok (match dp with Some d => d | None => "" end)
               end) = Ok (selector_string dp l)).
  { unfold selector_string. destruct l as [ds|].
    - rewrite tuple_of_slice_to_string by now apply N. reflexivity.
    - now rewrite append_nil_r. }
  assert (F : forall body : string,
             match sc with
             | Some name =>
                 absolute <- is_absolute (mkDataUrl (__is_valid (built (Some fp) dp l sc))
                                                    (Some fp) dp l sc None) ;;
                 if absolute then
                   if startswith body "/" then Ok (name ++ "://" ++ body)
                   else Ok (name ++ ":///" ++ body)
                 else Ok (name ++ ":" ++ body)
             | None => Ok body
             end =
             Ok (match sc with
                 | None => body
                 | Some name =>
                     if absolute fp then
                       if startswith body "/" then name ++ "://" ++ body
                       else name ++ ":///" ++ body
                     else name ++ ":" ++ body
                 end)).
  { intros body. destruct sc as [name|]; [|reflexivity].
    rewrite (is_absolute_eq _ fp) by reflexivity. cbn [bind].
    destruct (absolute fp); [|reflexivity].
    now destruct (startswith body "/"). }
  destruct dp as [d|]; cbn [append] in *; rewrite S; cbn [bind];
    unfold serialized, selector_suffix;
    destruct (negb (selector_string _ l =? "")); rewrite ?append_nil_r; apply F.
Qed.

End Serializer.

Section DoubleColon.

Lemma find_dcolon_cons (x : ascii) (s : string) :
  find "::" (String x s) =
  if Ascii.eqb x ":" && startswith s ":" then Some 0
  else option_map S (find "::" s).
Proof.
  rewrite find_unfold. unfold startswith. rewrite prefix_cons.
  now rewrite (Ascii.eqb_sym ":" x).
Qed.

(** An occurrence of "::" does not start in a text without ":". *)
Lemma find_dcolon_app (a s : string) :
  contains a ":" = false ->
  find "::" (a ++ s) = option_map (fun i => len a + i) (find "::" s).
Proof.
  induction a as [|x a IH]; intros H.
  - cbn [append]. now destruct (find "::" s).
  - rewrite contains_char_cons in H. apply orb_false_iff in H as [E H].
    change (String x a ++ s) with (String x (a ++ s)).
    rewrite find_dcolon_cons, E, (IH H). cbn [andb].
    now destruct (find "::" s).
Qed.




(** The first "::" of [name ++ ":" ++ q ++ tail], for [name] and [q] without
    ":" and [q] not empty, is the first "::" of [tail]. *)
Lemma find_dcolon_scheme (name q tail : string) :
  contains name ":" = false -> contains q ":" = false -> q <> "" ->
  find "::" (name ++ ":" ++ q ++ tail) =
  option_map (fun i => len (name ++ ":" ++ q) + i) (find "::" tail).
Proof.
  intros Hn Hq Nq. rewrite (find_dcolon_app _ _ Hn).
  change (":" ++ q ++ tail) with (String ":" (q ++ tail)).
  rewrite find_dcolon_cons.
  assert (S : startswith (q ++ tail) ":" = false).
  { destruct q as [|x q]; [congruence|].
    rewrite contains_char_cons in Hq. apply orb_false_iff in Hq as [E _].
    unfold startswith. change (String x q ++ tail) with (String x (q ++ tail)).
    rewrite prefix_cons, (Ascii.eqb_sym ":" x), E. reflexivity. }
  rewrite S, andb_false_r, (find_dcolon_app _ _ Hq), !len_app.
  change (len ":") with 1.
  destruct (find "::" tail); cbn [option_map]; [f_equal; lia | reflexivity].
Qed.

End DoubleColon.

Section ParseSerialized.

Variable dp : option string.
Variable ds : option (list slice_item).

Hypothesis dp_ok : forall d, dp = Some d -> d <> "" /\ contains d "[" = false.
Hypothesis ds_ok : forall l, ds = Some l -> l <> [] /\ ~ In Other l.




End ParseSerialized.

Section RoundTrip.

Lemma scheme_part_eq (path : string) :
  scheme_part path =
  let e0 := first_segment path in
  match find ":" e0 with
  | Some i => if Nat.leb i 2 then None else Some (slice_to i e0)
  | None => None
  end.
Proof.
  unfold scheme_part. destruct (elements_first path) as [tl ->].
  rewrite parse_scheme_eq. cbv zeta.
  destruct (find ":" (first_segment path)) as [i|]; [|reflexivity].
  now destruct (Nat.leb i 2).
Qed.


Variable dp : option string.
Variable ds : option (list slice_item).

Hypothesis dp_ok : forall d, dp = Some d -> d <> "" /\ contains d "[" = false.
Hypothesis ds_ok : forall l, ds = Some l -> l <> [] /\ ~ In Other l.







End RoundTrip.

Section MoreUrl.




Lemma absolute_file_path_of (fp : string) :
  startswith fp "///" = true -> absolute (file_path_of fp) = true.
Proof.
  intros S. unfold file_path_of. rewrite S. cbv zeta.
  destruct (Nat.ltb 2 (len (slice_from 3 fp)) &&
            (char_is (slice_from 3 fp) 1 ":" || char_is (slice_from 3 fp) 2 ":"))
    eqn:B; [|reflexivity].
  apply andb_true_iff in B as [_ B]. unfold absolute.
  now rewrite <- orb_assoc, B, orb_true_r.
Qed.

Lemma tuple_of_Forall2 {A B : Type} (f : A -> result B) (l : list A) (ys : list B) :
  Forall2 (fun x y => f x = Ok y) l ys -> tuple_of f l = Ok ys.
Proof.
  induction 1 as [|x y l ys H _ IH]; [reflexivity|].
  cbn [tuple_of]. now rewrite H, IH.
Qed.

Lemma selector_flow_terms (self : DataUrl) (dp : string) (terms : list string)
      (items : list slice_item) :
  contains dp "[" = false -> terms_wf terms -> terms <> [] ->
  Forall2 (fun t x => str_to_slice t = Ok x) terms items ->
  selector_flow self (dp ++ "[" ++ join "," terms ++ "]") =
  Next (set_data_slice (set_data_path self (data_path_of dp)) (Some items)).
Proof.
  intros Hdp W N F. rewrite (selector_flow_bracket _ _ _ Hdp). cbv zeta.
  assert (C : contains (join "," terms) "]" = false)
    by (apply join_no_char; [reflexivity | now apply terms_wf_brackets]).
  change (join "," terms ++ "]") with (join "," terms ++ String "]" "").
  rewrite (find_char_app _ _ _ C), slice_to_app, slice_from_app.
  cbn [slice_from String.eqb negb].
  rewrite split_join; [| assumption | now apply terms_wf_commas].
  now rewrite (tuple_of_Forall2 _ _ _ F).
Qed.

End MoreUrl.

Section Validity.

Lemma valid_has_file_path_aux (p fp dp : option string)
      (ds : option (list slice_item)) (sc : option string) (u : DataUrl) :
  __init__ p fp dp ds sc = Ok u ->
  is_valid u = true ->
  exists f, file_path u = Some f /\ f <> "".
Proof.
  intros H V.
  destruct (init_end _ _ _ _ _ _ H) as [E|(path & _ & _ & W)];
    [|unfold is_valid in V; congruence].
  unfold is_valid in V. rewrite E in V. unfold __check_validity in V.
  unfold file_path. destruct (__file_path u) as [f|]; [|discriminate V].
  exists f. split; [reflexivity|].
  destruct (String.eqb_spec f ""); [discriminate V | assumption].
Qed.

End Validity.

(** ** Further properties of [DataUrl] *)





(** X3. [path()] of an instance parsed from a string is that string,
    character for character, whether the instance is valid or not. *)
Theorem parsed_path_verbatim (s : string) :
  exists u, from_path s = Ok u /\ path u = Ok s.
Proof.
  destruct (from_path_total s) as [u H]. exists u. split; [exact H|].
  destruct (from_path_inv _ _ H) as (P & _). unfold path. now rewrite P.
Qed.

(** X4. A valid instance has a file path, and it is not empty, however the
    instance was made. *)
Theorem valid_has_file_path (p fp dp : option string)
        (ds : option (list slice_item)) (sc : option string) (u : DataUrl) :
  __init__ p fp dp ds sc = Ok u ->
  is_valid u = true ->
  exists f, file_path u = Some f /\ f <> "".
Proof.
  intros H V.
  destruct (init_end _ _ _ _ _ _ H) as [E|(path & _ & _ & W)];
    [|unfold is_valid in V; congruence].
  unfold is_valid in V. rewrite E in V. unfold __check_validity in V.
  unfold file_path. destruct (__file_path u) as [f|]; [|discriminate V].
  exists f. split; [reflexivity|].
  destruct (String.eqb_spec f ""); [discriminate V | assumption].
Qed.

Lemma valid_has_file_path_witness :
  exists u, from_path "./foo/bar/image.edf" = Ok u /\ is_valid u = true /\
            exists f, file_path u = Some f /\ f <> "".
Proof.
  eexists. split; [vm_compute; reflexivity|]. split; [reflexivity|].
  apply (valid_has_file_path (Some "./foo/bar/image.edf") None None None None);
    vm_compute; reflexivity.
Defined.

(** X5. With the scheme "fabio" and a non-empty file path, an instance built
    from components, or parsed from a string whose selector is not
    malformed, is valid exactly when it has no data path. *)
Theorem fabio_validity (p fp dp : option string) (ds : option (list slice_item))
        (sc : option string) (u : DataUrl) (f : string) :
  __init__ p fp dp ds sc = Ok u ->
  (forall path, p = Some path -> ~ malformed path) ->
  scheme u = Some "fabio" ->
  file_path u = Some f -> f <> "" ->
  (is_valid u = true <-> data_path u = None).
Proof.
  intros H NM S F N.
  destruct (init_end _ _ _ _ _ _ H) as [E|(path & -> & M & _)];
    [|now destruct (NM path eq_refl)].
  unfold is_valid, data_path, scheme, file_path in *. rewrite E.
  unfold __check_validity. rewrite F, S.
  destruct (String.eqb_spec f ""); [contradiction|]. cbn.
  destruct (__data_path u); cbn; split; congruence.
Qed.

Lemma fabio_validity_witness :
  (exists u, from_components (Some "/data/image.edf") None (Some [Int 2])
                             (Some "fabio") = Ok u /\
             (is_valid u = true <-> data_path u = None)) /\
  (exists u, from_components (Some "/data/image.edf") (Some "/x") None
                             (Some "fabio") = Ok u /\
             (is_valid u = true <-> data_path u = None)).
Proof.
  split; (eexists; split; [vm_compute; reflexivity|]).
  - apply (fabio_validity None (Some "/data/image.edf") None (Some [Int 2])
                          (Some "fabio") _ "/data/image.edf");
      try (vm_compute; reflexivity); discriminate.
  - apply (fabio_validity None (Some "/data/image.edf") (Some "/x") None
                          (Some "fabio") _ "/data/image.edf");
      try (vm_compute; reflexivity); discriminate.
Defined.

(** X6. Without a scheme, an instance built from components, or parsed from
    a string whose selector is not malformed, is valid exactly when its file
    path is a non-empty string: data path and slice play no part. *)
Theorem no_scheme_validity (p fp dp : option string)
        (ds : option (list slice_item)) (sc : option string) (u : DataUrl) :
  __init__ p fp dp ds sc = Ok u ->
  (forall path, p = Some path -> ~ malformed path) ->
  scheme u = None ->
  (is_valid u = true <-> exists f, file_path u = Some f /\ f <> "").
Proof.
  intros H NM S. split; [now apply (valid_has_file_path_aux _ _ _ _ _ _ H)|].
  intros (f & F & N).
  destruct (init_end _ _ _ _ _ _ H) as [E|(path & -> & M & _)];
    [|now destruct (NM path eq_refl)].
  unfold is_valid, scheme, file_path in *. rewrite E.
  unfold __check_validity. rewrite F, S.
  now destruct (String.eqb_spec f "").
Qed.

Lemma no_scheme_validity_witness :
  exists u, from_components (Some "image.edf") None (Some [Int 2]) None = Ok u /\
            (is_valid u = true <-> exists f, file_path u = Some f /\ f <> "").
Proof.
  eexists; split; [vm_compute; reflexivity|].
  apply (no_scheme_validity None (Some "image.edf") None (Some [Int 2]) None);
    try (vm_compute; reflexivity); discriminate.
Defined.

(** X7. On an instance whose file path is a string, [is_absolute()] never
    raises, and it returns [True] exactly when the path starts with "/" or
    has ":" at index 1 or 2. *)
Theorem is_absolute_value (u : DataUrl) (f : string) :
  file_path u = Some f ->
  is_absolute u = Ok (char_is f 0 "/" || char_is f 1 ":" || char_is f 2 ":").
Proof.
  intros F. unfold is_absolute. rewrite F. unfold char_is, getitem.
  destruct f as [|a [|b [|c f]]]; cbn.
  - reflexivity.
  - destruct (Ascii.eqb a "/"); reflexivity.
  - destruct (Ascii.eqb a "/"); [reflexivity|]. cbn.
    destruct (Ascii.eqb b ":"); reflexivity.
  - destruct (Ascii.eqb a "/"); [reflexivity|]. cbn.
    destruct (Ascii.eqb b ":"); [reflexivity|]. cbn.
    destruct (Ascii.eqb c ":"); reflexivity.
Qed.

Lemma is_absolute_value_witness :
  exists u, from_path "silx:image.h5" = Ok u /\ is_absolute u = Ok false.
Proof.
  eexists; split; [vm_compute; reflexivity|].
  apply (is_absolute_value _ "image.h5"). reflexivity.
Defined.

(** X8. A string whose file part starts with "///" is parsed into an
    instance with an absolute file path. *)
Theorem absolute_marker_gives_absolute (path : string) :
  startswith (file_part path) "///" = true ->
  exists u, from_path path = Ok u /\ is_absolute u = Ok true.
Proof.
  intros S. destruct (from_path_total path) as [u H]. exists u.
  split; [exact H|]. destruct (from_path_inv _ _ H) as (_ & F & _).
  rewrite (is_absolute_eq u _ F). now rewrite absolute_file_path_of.
Qed.

Lemma absolute_marker_gives_absolute_witness :
  exists u, from_path "fabio:///C:/data/image.edf::[2]" = Ok u /\
            is_absolute u = Ok true.
Proof. apply absolute_marker_gives_absolute. reflexivity. Defined.





(** X11. When every term between the brackets can be read, [data_slice()] is
    the tuple of the items read, one per term and in the order of the terms,
    and [data_path()] is the text before the bracket. *)
Theorem slice_terms_in_order (path dp : string) (terms : list string)
        (items : list slice_item) :
  selector_part path = Some (dp ++ "[" ++ join "," terms ++ "]") ->
  contains dp "[" = false ->
  terms_wf terms -> terms <> [] ->
  Forall2 (fun t x => str_to_slice t = Ok x) terms items ->
  exists u, from_path path = Ok u /\
            data_slice u = Some items /\
            data_path u = data_path_of dp.
Proof.
  intros S Hdp W N F. rewrite from_path_eq, S.
  rewrite (selector_flow_terms _ dp terms items Hdp W N F).
  eexists. split; [reflexivity|]. cbn [finish].
  rewrite check_validity_eq. now split.
Qed.

Lemma slice_terms_in_order_witness :
  exists u, from_path "silx:///f.h5::/d[ 7,...,:,-1_0]" = Ok u /\
            data_slice u = Some [Int 7; Ellipsis; SliceNone; Int (-10)] /\
            data_path u = Some "/d".
Proof.
  apply (slice_terms_in_order "silx:///f.h5::/d[ 7,...,:,-1_0]" "/d"
                              [" 7"; "..."; ":"; "-1_0"]).
  - reflexivity.
  - reflexivity.
  - repeat constructor.
  - discriminate.
  - repeat constructor.
Defined.

(** X12. When the text before the first ":" of the first segment has more
    than two characters, it is the scheme, and the file part is what follows
    that ":". *)
Theorem long_token_is_scheme (path name rest : string) :
  first_segment path = name ++ ":" ++ rest ->
  contains name ":" = false ->
  2 < len name ->
  exists u, from_path path = Ok u /\
            scheme u = Some name /\ file_part path = rest.
Proof.
  intros E C L. destruct (from_path_total path) as [u H]. exists u.
  split; [exact H|]. destruct (from_path_inv _ _ H) as (_ & _ & S).
  unfold scheme. rewrite S, scheme_part_eq, file_part_eq, E. cbv zeta.
  change (name ++ ":" ++ rest) with (name ++ String ":" rest).
  rewrite (find_char_app _ _ _ C).
  destruct (Nat.leb_spec (len name) 2) as [L'|_]; [lia|].
  now rewrite slice_to_app, slice_from_app.
Qed.

Lemma long_token_is_scheme_witness :
  exists u, from_path "fabio:image.edf::[2]" = Ok u /\
            scheme u = Some "fabio" /\ file_part "fabio:image.edf::[2]" = "image.edf".
Proof.
  apply (long_token_is_scheme "fabio:image.edf::[2]" "fabio" "image.edf");
    [reflexivity | reflexivity | cbn; lia].
Defined.

(** X13. A selector without "[" is the data path as a whole ([None] when it
    is empty) and gives no slice; a string without "::" gives neither data
    path nor slice. *)
Theorem selector_without_bracket (path : string) :
  exists u, from_path path = Ok u /\
    (forall sel, selector_part path = Some sel -> contains sel "[" = false ->
                 data_path u = data_path_of sel /\ data_slice u = None) /\
    (selector_part path = None -> data_path u = None /\ data_slice u = None).
Proof.
  eexists. split; [apply from_path_eq|]. split.
  - intros sel S C. rewrite S. unfold selector_flow.
    rewrite (contains_false_find _ _ C). cbn [finish].
    rewrite check_validity_eq. now split.
  - intros S. rewrite S. cbn [finish]. rewrite check_validity_eq. now split.
Qed.

Lemma selector_without_bracket_witness :
  exists u, from_path "silx:///data/image.edf::/scan_0/detector/data" = Ok u /\
            data_path u = Some "/scan_0/detector/data" /\ data_slice u = None.
Proof.
  destruct (selector_without_bracket
              "silx:///data/image.edf::/scan_0/detector/data") as (u & H & A & _).
  exists u. split; [exact H|].
  apply (A "/scan_0/detector/data"); reflexivity.
Defined.

(** X14. The scheme of a parsed instance, when there is one, is the text of
    the input before its first ":": it has more than two characters and
    holds no ":". *)
Theorem parsed_scheme_shape (path name : string) (u : DataUrl) :
  from_path path = Ok u ->
  scheme u = Some name ->
  2 < len name /\ contains name ":" = false /\
  startswith path (name ++ ":") = true.
Proof.
  intros H S. destruct (from_path_inv _ _ H) as (_ & _ & P).
  unfold scheme in S. rewrite P, scheme_part_eq in S. cbv zeta in S.
  destruct (find ":" (first_segment path)) as [i|] eqn:F; [|discriminate].
  destruct (Nat.leb_spec i 2) as [|L]; [discriminate|]. injection S as <-.
  pose proof (find_bound _ _ _ F) as B. pose proof (find_split _ _ _ F) as E.
  split; [rewrite len_slice_to; lia|].
  split; [now apply find_char_before|].
  unfold startswith.
  assert (P1 : exists t, path = first_segment path ++ t).
  { unfold first_segment. destruct (find "::" path) as [j|].
    - exists (slice_from j path). symmetry. apply slice_to_from.
    - exists "". symmetry. apply append_nil_r. }
  destruct P1 as [t P1].
  assert (G : forall a b e : string,
             e = a ++ ":" ++ b -> String.prefix (a ++ ":") (e ++ t) = true).
  { intros a b e ->. rewrite !append_assoc, <- (append_assoc a ":" (b ++ t)).
    apply prefix_app. }
  pose proof (G _ _ _ E) as G'. now rewrite <- P1 in G'.
Qed.

Lemma parsed_scheme_shape_witness :
  2 < len "silx" /\ contains "silx" ":" = false /\
  startswith "silx:///data/image.h5::/data/dataset[1,5]" ("silx" ++ ":") = true.
Proof.
  apply (parsed_scheme_shape "silx:///data/image.h5::/data/dataset[1,5]" "silx"
           (mkDataUrl true (Some "/data/image.h5") (Some "/data/dataset")
                      (Some [Int 1; Int 5]) (Some "silx")
                      (Some "silx:///data/image.h5::/data/dataset[1,5]")));
    vm_compute; reflexivity.
Defined.

(** X25. A file path of two characters with ":" as the second one, such as
    "C:", does not survive the round trip when a scheme is given:
    [is_absolute()] takes it for absolute and [path()] writes it after
    "///", but the parser keeps a drive path after "///" only when it has
    more than two characters, and reads the file path back with a "/" in
    front. *)
Theorem two_character_drive_gains_slash (name : string) (c : ascii) :
  2 < len name -> contains name ":" = false ->
  Ascii.eqb c ":" = false -> Ascii.eqb c "/" = false ->
  let fp := String c ":" in
  exists u p u',
    from_components (Some fp) None None (Some name) = Ok u /\
    path u = Ok p /\
    from_path p = Ok u' /\
    file_path u = Some fp /\
    file_path u' = Some ("/" ++ fp).
Proof.
  intros Ln Cn Cc Cs fp.
  assert (Ep : serialized fp None None (Some name) = name ++ ":///" ++ fp).
  { unfold serialized, selector_suffix, selector_string, absolute, char_is, fp.
    cbn [String.get append String.eqb negb]. rewrite Cs. cbn [orb Ascii.eqb].
    unfold startswith. cbn [append]. rewrite prefix_cons, (Ascii.eqb_sym "/" c), Cs.
    reflexivity. }
  set (p := name ++ ":///" ++ fp).
  assert (Fd : find "::" p = None).
  { subst p fp.
    change (name ++ ":///" ++ String c ":")
      with (name ++ ":" ++ String "/" (String "/" (String "/" (String c ""))) ++ ":").
    rewrite find_dcolon_scheme; [reflexivity | exact Cn | | discriminate].
    now rewrite !contains_char_cons, Cc. }
  assert (Fs : first_segment p = p) by (unfold first_segment; now rewrite Fd).
  exists (built (Some fp) None None (Some name)), p.
  destruct (from_path_total p) as [u' H]. exists u'.
  split; [apply built_eq|].
  split; [rewrite path_built by discriminate; now rewrite Ep|].
  split; [exact H|]. split; [now rewrite built_fields|].
  destruct (from_path_inv _ _ H) as (_ & F & _).
  unfold file_path. rewrite F, file_part_eq, Fs. cbv zeta. subst p.
  change (name ++ ":///" ++ fp) with (name ++ String ":" ("///" ++ fp)).
  rewrite (find_char_app _ _ _ Cn).
  destruct (Nat.leb_spec (len name) 2) as [L|_]; [lia|].
  rewrite slice_from_app. cbn [slice_from].
  unfold file_path_of. rewrite startswith_absolute, slice_from_absolute.
  reflexivity.
Qed.

Lemma two_character_drive_gains_slash_witness :
  exists u p u',
    from_components (Some "C:") None None (Some "fabio") = Ok u /\
    path u = Ok p /\
    from_path p = Ok u' /\
    file_path u = Some "C:" /\
    file_path u' = Some "/C:".
Proof.
  apply (two_character_drive_gains_slash "fabio" "C");
    [cbn; lia | reflexivity | reflexivity | reflexivity].
Defined.

(** ** The anchors of [BackgroundWidget.update] *)

Section Anchors.

Open Scope Z_scope.

Lemma nonzero_ge_from_In (x : list Z) (channel i k : Z) :
  In k (nonzero_ge_from i x channel) <->
  exists j : nat, (j < List.length x)%nat /\ k = i + Z.of_nat j /\
                  channel <= nth j x 0.
Proof.
  revert i; induction x as [|v x IH]; intros i; cbn [nonzero_ge_from].
  - split; [contradiction | intros (j & L & _); inversion L].
  - assert (Tail : In k (nonzero_ge_from (i + 1) x channel) <->
                   exists j : nat, (S j < List.length (v :: x))%nat /\
                                   k = i + Z.of_nat (S j) /\
                                   channel <= nth (S j) (v :: x) 0).
    { rewrite IH. split; intros (j & L & E & H); exists j; cbn in *;
        repeat split; try lia; exact H. }
    destruct (Z.leb_spec channel v) as [C|C]; cbn [In]; rewrite Tail; split.
    + intros [E|(j & H)]; [|now exists (S j)].
      exists 0%nat. cbn. repeat split; lia.
    + intros (j & L & E & H). destruct j as [|j]; [left; lia|].
      right. now exists j.
    + intros (j & H). now exists (S j).
    + intros (j & L & E & H). destruct j as [|j]; [cbn in H; lia|].
      now exists j.
Qed.

Lemma fold_min_spec (l : list Z) (a : Z) :
  In (fold_left Z.min l a) (a :: l) /\
  forall b, In b (a :: l) -> fold_left Z.min l a <= b.
Proof.
  revert a; induction l as [|c l IH]; intros a; cbn [fold_left].
  - split; [now left | intros b [<-|[]]; lia].
  - destruct (IH (Z.min a c)) as [I M]. split.
    + destruct I as [E|I]; [|now right; right].
      rewrite <- E. destruct (Z.min_spec a c) as [[_ ->]|[_ ->]];
        [now left | now right; left].
    + intros b [<-|[<-|I']].
      * specialize (M (Z.min a c) (or_introl eq_refl)). lia.
      * specialize (M (Z.min a c) (or_introl eq_refl)). lia.
      * apply M. now right.
Qed.

Lemma min_of_first (x : list Z) (channel : Z) :
  nonzero_ge x channel <> [] ->
  exists m, min_of (nonzero_ge x channel) = Ok m /\ first_at_least x channel m.
Proof.
  intros N. unfold min_of.
  destruct (nonzero_ge x channel) as [|a l] eqn:E; [congruence|].
  destruct (fold_min_spec l a) as [I M].
  exists (fold_left Z.min l a). split; [reflexivity|].
  set (m := fold_left Z.min l a) in *.
  rewrite <- E in I, M. unfold nonzero_ge in I, M.
  apply nonzero_ge_from_In in I. destruct I as (j & L & Ej & H).
  cbn in Ej. subst m. rewrite Ej in *.
  unfold first_at_least. rewrite Nat2Z.id.
  split; [lia|]. split; [exact H|].
  intros k Hk.
  destruct (Z.lt_ge_cases (nth (Z.to_nat k) x 0) channel) as [|G]; [assumption|].
  exfalso.
  assert (Ik : In k (nonzero_ge_from 0 x channel)).
  { apply nonzero_ge_from_In. exists (Z.to_nat k). repeat split; lia. }
  specialize (M k Ik). lia.
Qed.

Lemma anchors_loop_spec (x channels acc : list Z) (P : Z -> Prop) :
  x <> [] ->
  (forall channel i, In channel channels -> 0 < i ->
                     first_at_least x channel i -> P i) ->
  Forall P acc ->
  exists l, anchors_loop x channels acc = Ok l /\ Forall P l /\
            (List.length l <= List.length acc + List.length channels)%nat.
Proof.
  intros Nx. revert acc; induction channels as [|channel rest IH];
    intros acc HP Hacc.
  - exists acc. cbn. repeat split; auto. lia.
  - destruct x as [|x0 x']; [congruence|]. cbn [anchors_loop list_getitem nth_error bind].
    assert (HP' : forall channel i, In channel rest -> 0 < i ->
                   first_at_least (x0 :: x') channel i -> P i)
      by (intros c i I; apply HP; now right).
    assert (Step : forall acc', Forall P acc' ->
                     (List.length acc' <= S (List.length acc))%nat ->
                     exists l, anchors_loop (x0 :: x') rest acc' = Ok l /\
                               Forall P l /\
                               (List.length l <=
                                List.length acc + List.length (channel :: rest))%nat).
    { intros acc' F L. destruct (IH acc' HP' F) as (l & E & Fl & Ll).
      exists l. cbn [List.length]. repeat split; auto. lia. }
    destruct (channel <=? x0); [apply Step; auto|].
    destruct (nonzero_ge (x0 :: x') channel) as [|a idx] eqn:E;
      [apply Step; auto|].
    cbn [List.length Nat.eqb negb].
    destruct (min_of_first (x0 :: x') channel) as (m & Em & Fm);
      [rewrite E; discriminate|].
    rewrite E in Em. rewrite Em. cbn [bind].
    destruct (Z.ltb_spec 0 m); [|apply Step; auto].
    apply Step.
    + apply Forall_app. split; [assumption|]. constructor; [|constructor].
      apply (HP channel); auto. now left.
    + rewrite length_app. cbn. lia.
Qed.

Lemma anchors_block_total (anchorsflag : bool) (channels x : list Z) :
  x <> [] -> exists l, anchors_block anchorsflag (Some channels) x = Ok l.
Proof.
  intros Nx. unfold anchors_block. destruct anchorsflag; [|now exists []].
  destruct (anchors_loop_spec x channels [] (fun _ => True) Nx)
    as (l & E & _); auto.
  now exists l.
Qed.

End Anchors.

(** X15. With a non-empty [x], the anchors block never raises, and every
    index it returns is positive and is the index of the first element of
    [x] that reaches one of the anchors; there are at most as many indices
    as anchors. *)
Theorem anchors_are_first_crossings (anchorsflag : bool) (channels : list Z)
        (x : list Z) :
  x <> [] ->
  exists l,
    anchors_block anchorsflag (Some channels) x = Ok l /\
    Forall (fun i => (0 < i)%Z /\
                     exists channel, In channel channels /\
                                     first_at_least x channel i) l /\
    List.length l <= List.length channels.
Proof.
  intros Nx. unfold anchors_block. destruct anchorsflag.
  - destruct (anchors_loop_spec x channels []
                (fun i => (0 < i)%Z /\
                          exists channel, In channel channels /\
                                          first_at_least x channel i) Nx)
      as (l & E & F & L).
    + intros channel i I Hi Hf. split; [assumption|]. now exists channel.
    + constructor.
    + exists l. repeat split; auto.
  - exists []. repeat split; auto. cbn. lia.
Qed.

Lemma anchors_are_first_crossings_witness :
  exists l,
    anchors_block true (Some [5; 0; 12; 100; 7]%Z) [1; 3; 5; 7; 9; 11; 13]%Z = Ok l /\
    Forall (fun i => (0 < i)%Z /\
                     exists channel, In channel [5; 0; 12; 100; 7]%Z /\
                                     first_at_least [1; 3; 5; 7; 9; 11; 13]%Z channel i) l /\
    List.length l <= 5.
Proof. apply anchors_are_first_crossings. discriminate. Defined.

(** X16. The anchors block raises only for an empty [x], when the anchors
    are switched on and there is at least one: then the first test
    [ravelled[0]] is an [IndexError]. *)
Theorem anchors_block_raises (anchorsflag : bool) (anchorslist : option (list Z))
        (x : list Z) (e : exn) :
  anchors_block anchorsflag anchorslist x = Raise e <->
  (e = IndexError /\ anchorsflag = true /\ x = [] /\
   exists channel rest, anchorslist = Some (channel :: rest)).
Proof.
  split.
  - intros H. destruct x as [|x0 x'].
    + unfold anchors_block in H.
      destruct anchorslist as [[|c r]|]; try discriminate;
        destruct anchorsflag; try discriminate.
      cbn in H. injection H as <-. repeat split. now exists c, r.
    + exfalso. destruct anchorslist as [channels|]; [|discriminate].
      destruct (anchors_block_total anchorsflag channels (x0 :: x'))
        as (l & E); [discriminate|]. congruence.
  - intros (-> & -> & -> & c & r & ->). reflexivity.
Qed.

Lemma anchors_block_raises_witness :
  anchors_block true (Some [5; 7]%Z) [] = Raise IndexError.
Proof.
  apply (anchors_block_raises true (Some [5; 7]%Z) [] IndexError).
  repeat split. now exists 5%Z, [7%Z].
Defined.

(** ** The SNIP background of [BackgroundWidget.update] *)

Section SnipProofs.

Variable value : Type.
Variable width_t : Type.
Variable snip1d : list value -> width_t -> list value.
Variable times_zero : value -> value.

(** [snip1d] returns an array of the length of its argument. *)
Hypothesis snip1d_length :
  forall (l : list value) (w : width_t), List.length (snip1d l w) = List.length l.

Lemma slice_bound_id (i : Z) (n : nat) :
  (0 <= i <= Z.of_nat n)%Z -> slice_bound i n = Z.to_nat i.
Proof.
  intros H. unfold slice_bound. destruct (Z.ltb_spec i 0); [lia|].
  apply Nat.min_l. lia.
Qed.

Lemma assign_exact (a b : list value) (lo m : nat) :
  List.length b = m ->
  assign a lo m b = Ok (firstn lo a ++ b ++ skipn (lo + m) a)%list.
Proof. intros <-. unfold assign. now rewrite Nat.eqb_refl. Qed.

Lemma firstn_exact {A : Type} (a b : list A) (k : nat) :
  List.length a = k -> firstn k (a ++ b) = a.
Proof. intros <-. now rewrite firstn_app, Nat.sub_diag, firstn_all, firstn_O, app_nil_r. Qed.

Lemma skipn_exact {A : Type} (a b : list A) (k m : nat) :
  List.length a = k -> skipn (k + m) (a ++ b) = skipn m b.
Proof.
  intros <-. rewrite skipn_app.
  rewrite skipn_all2 by lia. cbn [app]. f_equal. lia.
Qed.

Lemma firstn_split {A : Type} (y : list A) (lo hi : nat) :
  lo <= hi ->
  (firstn lo y ++ firstn (hi - lo) (skipn lo y))%list = firstn hi y.
Proof.
  revert y hi; induction lo as [|lo IH]; intros y hi L.
  - cbn. now rewrite Nat.sub_0_r.
  - destruct hi as [|hi]; [lia|]. destruct y as [|a y]; [now rewrite !firstn_nil|].
    cbn. f_equal. apply IH. lia.
Qed.

Lemma length_concat_snip (segs : list (list value)) (w : width_t) :
  List.length (List.concat (map (fun s => snip1d s w) segs)) =
  List.length (List.concat segs).
Proof.
  induction segs as [|s segs IH]; [reflexivity|].
  cbn [map List.concat]. now rewrite !length_app, snip1d_length, IH.
Qed.

Lemma snip_state_length (y : list value) (w : width_t)
      (segs : list (list value)) (sb : list value) (last : Z) :
  snip_state snip1d times_zero y w segs sb last ->
  List.length sb = List.length y /\
  List.length (List.concat (map (fun s => snip1d s w) segs)) = Z.to_nat last /\
  Z.to_nat last <= List.length y.
Proof.
  intros (R & C & _ & ->).
  assert (L : Z.to_nat last <= List.length y) by lia.
  rewrite length_app, length_map, length_skipn, length_concat_snip, C,
    length_firstn, Nat.min_l by lia.
  repeat split; lia.
Qed.

Lemma snip_loop_spec (y : list value) (w : width_t) (anchors : list Z) :
  forall segs sb last,
    snip_state snip1d times_zero y w segs sb last ->
    exists segs' sb' last',
      snip_loop snip1d y w anchors sb last = Ok (sb', last') /\
      snip_state snip1d times_zero y w segs' sb' last'.
Proof.
  induction anchors as [|anchor rest IH]; intros segs sb last St.
  - exists segs, sb, last. now split.
  - cbn [snip_loop].
    destruct (Z.ltb_spec last anchor) as [L1|L1]; [|now apply (IH segs)].
    destruct (Z.ltb_spec anchor (Z.of_nat (List.length y))) as [L2|L2];
      [|now apply (IH segs)].
    cbn [andb].
    destruct (snip_state_length _ _ _ _ _ St) as (Lsb & Lc & Ll).
    destruct St as (R & C & F & Esb).
    assert (R0 : (0 <= last)%Z) by lia.
    unfold setslice, getslice. rewrite Lsb.
    rewrite !slice_bound_id by lia.
    set (lo := Z.to_nat last) in *. set (hi := Z.to_nat anchor).
    assert (Lh : lo < hi <= List.length y) by lia.
    set (seg := firstn (hi - lo) (skipn lo y)).
    assert (Lseg : List.length seg = hi - lo).
    { subst seg. rewrite length_firstn, length_skipn. lia. }
    rewrite assign_exact by (now rewrite snip1d_length).
    cbn [bind].
    apply (IH (segs ++ [seg])%list).
    repeat split.
    + right. lia.
    + rewrite concat_app. cbn [List.concat]. rewrite app_nil_r, C.
      now apply firstn_split; lia.
    + apply Forall_app. split; [assumption|].
      constructor; [|constructor]. intros E. rewrite E in Lseg. cbn in Lseg. lia.
    + rewrite Esb. rewrite firstn_exact by assumption.
      rewrite skipn_exact by assumption.
      rewrite map_app, concat_app. cbn [map List.concat].
      rewrite app_nil_r, <- app_assoc. f_equal. f_equal.
      rewrite skipn_map, skipn_skipn.
      replace (hi - lo + lo) with hi by lia. reflexivity.
Qed.

Lemma snip_block_spec (y : list value) (w : width_t) (anchors : list Z) :
  exists segs,
    List.concat segs = y /\ Forall (fun s => s <> []) segs /\
    snip_block snip1d times_zero y w anchors =
    Ok (List.concat (map (fun s => snip1d s w) segs)).
Proof.
  unfold snip_block.
  set (sorted := list_sort _).
  destruct (snip_loop_spec y w sorted [] (map times_zero y) 0%Z)
    as (segs & sb & last & E & St).
  { repeat split; auto. }
  rewrite E. cbn [bind].
  destruct (snip_state_length _ _ _ _ _ St) as (Lsb & Lc & Ll).
  destruct St as (R & C & F & Esb).
  destruct (Z.ltb_spec last (Z.of_nat (List.length y))) as [L|L].
  - exists (segs ++ [skipn (Z.to_nat last) y])%list.
    unfold setslice_from, getslice_from. rewrite Lsb.
    rewrite !slice_bound_id by lia.
    rewrite assign_exact by (rewrite snip1d_length, length_skipn; lia).
    repeat split.
    + rewrite concat_app. cbn [List.concat]. rewrite app_nil_r, C.
      apply firstn_skipn.
    + apply Forall_app. split; [assumption|]. constructor; [|constructor].
      intros E0. apply (f_equal (@List.length value)) in E0.
      rewrite length_skipn in E0. cbn in E0. lia.
    + f_equal. rewrite Esb. rewrite firstn_exact by assumption.
      rewrite (skipn_exact _ _ (Z.to_nat last)) by assumption.
      rewrite (skipn_all2 (map times_zero (skipn (Z.to_nat last) y)))
        by (rewrite length_map, length_skipn; lia).
      rewrite map_app, concat_app. cbn [map List.concat].
      now rewrite !app_nil_r.
  - assert (Z.to_nat last = 0 /\ y = []) as [E0 ->].
    { destruct R as [->|R]; [|lia]. split; [reflexivity|].
      destruct y; [reflexivity | cbn in L; lia]. }
    exists segs. rewrite Esb, E0. cbn [skipn map].
    rewrite app_nil_r. rewrite E0 in C. cbn in C. repeat split; auto.
Qed.

Lemma length_zero_nil {A : Type} (l : list A) : List.length l = 0 -> l = [].
Proof. now destruct l. Qed.

(** One cut at [c]: the background is the filter of [ysmooth[:c]] followed
    by the filter of [ysmooth[c:]]. *)
Lemma snip_one_cut (y : list value) (w : width_t) (c : Z) (l : list Z) :
  (0 < c < Z.of_nat (List.length y))%Z ->
  l = [c] \/ l = [0%Z; c] ->
  (r <- snip_loop snip1d y w l (map times_zero y) 0%Z ;;
   let '(sb, last) := r in
   if (last <? Z.of_nat (List.length y))%Z then
     setslice_from sb last (snip1d (getslice_from y last) w)
   else Ok sb) =
  Ok (snip1d (firstn (Z.to_nat c) y) w ++ snip1d (skipn (Z.to_nat c) y) w)%list.
Proof.
  intros Hc Hl.
  assert (E : snip_loop snip1d y w l (map times_zero y) 0%Z =
              snip_loop snip1d y w [c] (map times_zero y) 0%Z).
  { destruct Hl as [->| ->]; [reflexivity|]. cbn [snip_loop].
    now rewrite Z.ltb_irrefl. }
  rewrite E. cbn [snip_loop].
  destruct (Z.ltb_spec 0 c) as [_|]; [|lia].
  destruct (Z.ltb_spec c (Z.of_nat (List.length y))) as [_|]; [|lia].
  cbn [andb]. unfold setslice, getslice. rewrite length_map.
  rewrite !slice_bound_id by lia. cbn [Z.to_nat skipn firstn app].
  rewrite Nat.sub_0_r.
  rewrite assign_exact
    by (rewrite snip1d_length, length_firstn; lia).
  cbn [bind firstn app Nat.add].
  destruct (Z.ltb_spec c (Z.of_nat (List.length y))) as [_|]; [|lia].
  unfold setslice_from, getslice_from.
  assert (L1 : List.length (snip1d (firstn (Z.to_nat c) y) w) = Z.to_nat c)
    by (rewrite snip1d_length, length_firstn; lia).
  assert (L2 : List.length (snip1d (firstn (Z.to_nat c) y) w
                            ++ skipn (Z.to_nat c) (map times_zero y))%list
               = List.length y).
  { rewrite length_app, L1, length_skipn, length_map. lia. }
  rewrite L2, !slice_bound_id by lia.
  rewrite assign_exact by (rewrite snip1d_length, length_skipn; lia).
  f_equal. rewrite firstn_exact by assumption. f_equal.
  rewrite (skipn_all2 (snip1d (firstn (Z.to_nat c) y) w ++ _)%list) by lia.
  apply app_nil_r.
Qed.

End SnipProofs.

Section Sorting.

Lemma insert_sorted_comm (a b : Z) (l : list Z) :
  insert_sorted a (insert_sorted b l) = insert_sorted b (insert_sorted a l).
Proof.
  induction l as [|c l IH]; cbn [insert_sorted].
  - destruct (Z.leb_spec a b), (Z.leb_spec b a); try reflexivity; try lia.
    now replace b with a by lia.
  - destruct (Z.leb_spec b c), (Z.leb_spec a c); cbn [insert_sorted].
    + destruct (Z.leb_spec a b), (Z.leb_spec b a), (Z.leb_spec a c),
        (Z.leb_spec b c); try reflexivity; try lia.
      now replace b with a by lia.
    + destruct (Z.leb_spec a b), (Z.leb_spec b c), (Z.leb_spec a c);
        try reflexivity; lia.
    + destruct (Z.leb_spec b a), (Z.leb_spec b c), (Z.leb_spec a c);
        try reflexivity; lia.
    + destruct (Z.leb_spec b c), (Z.leb_spec a c); try lia.
      now rewrite IH.
Qed.

(** The order of the list does not matter to [list_sort]. *)
Lemma list_sort_permutation (l l' : list Z) :
  Permutation l l' -> list_sort l = list_sort l'.
Proof.
  induction 1 as [|a l l' _ IH|a b l|l l' l'' _ IH1 _ IH2]; cbn [list_sort].
  - reflexivity.
  - now rewrite IH.
  - apply insert_sorted_comm.
  - now rewrite IH1.
Qed.

End Sorting.

(** X17. Provided [snip1d] returns as many values as it is given, the SNIP
    block never raises, and its result is made of the filtered values of
    consecutive, non-empty slices that together are [ysmooth]: no value of
    the initial zero array is left in it. *)
Theorem snip_background_partition (value width_t : Type)
        (snip1d : list value -> width_t -> list value)
        (times_zero : value -> value)
        (ysmooth : list value) (width : width_t) (anchors_indices : list Z) :
  (forall l w, List.length (snip1d l w) = List.length l) ->
  exists segs,
    List.concat segs = ysmooth /\
    Forall (fun s => s <> []) segs /\
    snip_block snip1d times_zero ysmooth width anchors_indices =
    Ok (List.concat (map (fun s => snip1d s width) segs)).
Proof.
  intros H. destruct (snip_block_spec value width_t snip1d times_zero H
                        ysmooth width anchors_indices) as (segs & C & F & E).
  exists segs. repeat split; assumption.
Qed.

Lemma snip_background_partition_witness :
  exists segs,
    List.concat segs = [10; 20; 30; 40; 50]%Z /\
    Forall (fun s => s <> []) segs /\
    snip_block (fun l w => map (Z.add w) l) (fun _ => 0%Z)
               [10; 20; 30; 40; 50]%Z 1%Z [3; 1; 7; 3]%Z =
    Ok (List.concat (map (fun s => map (Z.add 1%Z) s) segs)).
Proof.
  apply (snip_background_partition Z Z (fun l w => map (Z.add w) l)).
  intros l w. apply length_map.
Defined.

(** X18. Without anchors, the SNIP background is the filter of all values
    but the last, followed by the filter of the last value alone. *)
Theorem snip_without_anchors (value width_t : Type)
        (snip1d : list value -> width_t -> list value)
        (times_zero : value -> value)
        (ysmooth : list value) (width : width_t) :
  (forall l w, List.length (snip1d l w) = List.length l) ->
  snip_block snip1d times_zero ysmooth width [] =
  Ok (snip1d (getslice ysmooth 0 (-1)) width
      ++ snip1d (getslice_from ysmooth (-1)) width)%list.
Proof.
  intros H. unfold snip_block. cbn [List.length Nat.eqb list_sort insert_sorted].
  destruct ysmooth as [|v0 [|v1 y]].
  - cbn. now rewrite (length_zero_nil _ (H [] width)).
  - cbn. rewrite (length_zero_nil _ (H [] width)). cbn.
    unfold setslice_from. cbn. unfold assign. rewrite H. cbn.
    now rewrite app_nil_r.
  - remember (v0 :: v1 :: y) as ys eqn:Ey.
    set (n := List.length ys).
    assert (Ln : (2 <= Z.of_nat n)%Z) by (subst n ys; cbn; lia).
    destruct (Z.leb_spec 0 (Z.of_nat n - 1)) as [_|]; [|lia].
    rewrite (snip_one_cut value width_t snip1d times_zero H ys width
                          (Z.of_nat n - 1)) by (fold n; auto; lia).
    unfold getslice, getslice_from, slice_bound. fold n. cbn [Z.ltb Z.compare].
    replace (Z.to_nat (Z.max (-1 + Z.of_nat n) 0)) with (Z.to_nat (Z.of_nat n - 1))
      by lia.
    cbn [Z.to_nat Nat.min skipn]. now rewrite Nat.sub_0_r.
Qed.

Lemma snip_without_anchors_witness :
  snip_block (fun l w => map (Z.add (Z.of_nat (List.length l))) l) (fun _ => 0%Z)
             [10; 20; 30; 40; 50]%Z tt [] =
  Ok [14; 24; 34; 44; 51]%Z.
Proof.
  apply (snip_without_anchors Z unit
           (fun l w => map (Z.add (Z.of_nat (List.length l))) l)).
  intros l w. apply length_map.
Defined.

(** X19. The SNIP background does not depend on the order in which the
    anchors are given. *)
Theorem snip_anchor_order (value width_t : Type)
        (snip1d : list value -> width_t -> list value)
        (times_zero : value -> value)
        (ysmooth : list value) (width : width_t) (anchors anchors' : list Z) :
  Permutation anchors anchors' ->
  snip_block snip1d times_zero ysmooth width anchors =
  snip_block snip1d times_zero ysmooth width anchors'.
Proof.
  intros P. unfold snip_block.
  rewrite (Permutation_length P).
  destruct (Nat.eqb (List.length anchors') 0); [reflexivity|].
  now rewrite (list_sort_permutation _ _ P).
Qed.

Lemma snip_anchor_order_witness :
  snip_block (fun l w => map (Z.add (Z.of_nat (List.length l))) l) (fun _ => 0%Z)
             [10; 20; 30; 40; 50]%Z tt [3; 1]%Z =
  snip_block (fun l w => map (Z.add (Z.of_nat (List.length l))) l) (fun _ => 0%Z)
             [10; 20; 30; 40; 50]%Z tt [1; 3]%Z.
Proof. apply snip_anchor_order. apply perm_swap. Defined.

(** X20. One anchor index strictly inside the array cuts the computation in
    two: the background is the filter of the values before the anchor,
    followed by the filter of the values from the anchor on. *)
Theorem snip_one_anchor (value width_t : Type)
        (snip1d : list value -> width_t -> list value)
        (times_zero : value -> value)
        (ysmooth : list value) (width : width_t) (anchor : Z) :
  (forall l w, List.length (snip1d l w) = List.length l) ->
  (0 < anchor < Z.of_nat (List.length ysmooth))%Z ->
  snip_block snip1d times_zero ysmooth width [anchor] =
  Ok (snip1d (getslice ysmooth 0 anchor) width
      ++ snip1d (getslice_from ysmooth anchor) width)%list.
Proof.
  intros H Ha. unfold snip_block. cbn [List.length Nat.eqb list_sort insert_sorted].
  rewrite (snip_one_cut value width_t snip1d times_zero H ysmooth width anchor)
    by auto.
  unfold getslice, getslice_from. rewrite !slice_bound_id by lia.
  cbn [Z.to_nat skipn]. now rewrite Nat.sub_0_r.
Qed.

Lemma snip_one_anchor_witness :
  snip_block (fun l w => map (Z.add (Z.of_nat (List.length l))) l) (fun _ => 0%Z)
             [10; 20; 30; 40; 50]%Z tt [2]%Z =
  Ok [12; 22; 33; 43; 53]%Z.
Proof.
  apply (snip_one_anchor Z unit
           (fun l w => map (Z.add (Z.of_nat (List.length l))) l)).
  - intros l w. apply length_map.
  - cbn. lia.
Defined.

Import Gui.

(** ** Methods: what every call keeps, and calls that cannot return *)

Section Methods.

Context {St : Type}.

Lemma keeps_ret (P : St -> Prop) {A : Type} (a : A) : keeps P (ret a).
Proof. now intros s. Qed.

Lemma keeps_raise (P : St -> Prop) {A : Type} (e : error) :
  keeps P (raise e : M St A).
Proof. now intros s. Qed.

Lemma keeps_lift (P : St -> Prop) {A : Type} (o : outcome A) : keeps P (lift o).
Proof. now intros s. Qed.

Lemma keeps_ask (P : St -> Prop) {A : Type} (f : St -> outcome A) : keeps P (ask f).
Proof. now intros s. Qed.

Lemma keeps_modify (P : St -> Prop) (f : St -> St) :
  (forall s, P s -> P (f s)) -> keeps P (modify f).
Proof. intros H s. apply H. Qed.

Lemma keeps_call (P : St -> Prop) (f : St -> outcome St) :
  (forall s s', P s -> f s = Returns s' -> P s') -> keeps P (call f).
Proof.
  intros H s Ps. unfold call. destruct (f s) as [s'|e] eqn:E; [|exact Ps].
  now apply (H s).
Qed.

Lemma keeps_bind (P : St -> Prop) {A B : Type} (m : M St A) (k : A -> M St B) :
  keeps P m -> (forall a, keeps P (k a)) -> keeps P (bind m k).
Proof.
  intros Hm Hk s Ps. unfold bind. specialize (Hm s Ps).
  destruct (m s) as [s' [a|e]]; [now apply Hk | exact Hm].
Qed.

Lemma never_returns_raise {A : Type} (e : error) : never_returns (raise e : M St A).
Proof. intros s. now exists e. Qed.

(** What follows a call that never returns does not matter. *)
Lemma never_returns_first {A B : Type} (m : M St A) (k : A -> M St B) :
  never_returns m -> never_returns (bind m k).
Proof.
  intros H s. destruct (H s) as [e E]. exists e. unfold bind.
  destruct (m s) as [s' [a|e']]; cbn in *; congruence.
Qed.

(** A call that never returns ends whatever comes before it. *)
Lemma never_returns_then {A B : Type} (m : M St A) (k : A -> M St B) :
  (forall a, never_returns (k a)) -> never_returns (bind m k).
Proof.
  intros H s. unfold bind. destruct (m s) as [s' [a|e]]; [apply H | now exists e].
Qed.

End Methods.

(** ** The parameters form *)

Section FormProofs.

Variable V : Type.
Variable Q : Type.
Variable eq_str : V -> string -> bool.
Variable percent_s : V -> outcome string.
Variable is_None : V -> bool.
Variable py_int : V -> outcome Z.
Variable py_bool : V -> outcome bool.
Variable iterate : V -> outcome (list V).
Variable of_str : string -> V.
Variable of_int : Z -> V.
Variable of_bool : bool -> V.
Variable float_one : V.
Variable of_list : list V -> V.
Variable stripWidthSpin_setEnabled : bool -> Q -> outcome Q.
Variable stripIterValue_setEnabled : bool -> Q -> outcome Q.
Variable snipWidthSpin_setEnabled : bool -> Q -> outcome Q.
Variable snipWidthSpin_setValue : Z -> Q -> outcome Q.
Variable stripWidthSpin_setValue : Z -> Q -> outcome Q.
Variable stripIterValue_setText : string -> Q -> outcome Q.
Variable smoothingSpin_setValue : Z -> Q -> outcome Q.
Variable anchorsFlagCheck_setChecked : bool -> Q -> outcome Q.
Variable anchorSpin_setValue : nat -> Z -> Q -> outcome Q.
Variable stripIterValue_text : Q -> string.
Variable snipWidthSpin_value : Q -> Z.
Variable stripWidthSpin_value : Q -> Z.
Variable smoothingFlagCheck_isChecked : Q -> bool.
Variable smoothingSpin_value : Q -> Z.
Variable anchorsFlagCheck_isChecked : Q -> bool.
Variable anchorSpin_value : nat -> Q -> Z.

Let form : Type := ParamWidget.form V Q.

Let _setAlgorithm : V -> M form unit :=
  ParamWidget._setAlgorithm V Q eq_str percent_s stripWidthSpin_setEnabled
    stripIterValue_setEnabled snipWidthSpin_setEnabled.

Let setParameters : (string -> option V) -> M form unit :=
  ParamWidget.setParameters V Q eq_str percent_s is_None py_int py_bool iterate
    stripWidthSpin_setEnabled stripIterValue_setEnabled snipWidthSpin_setEnabled
    snipWidthSpin_setValue stripWidthSpin_setValue stripIterValue_setText
    smoothingSpin_setValue anchorsFlagCheck_setChecked anchorSpin_setValue.

Let getParameters : M form (string -> option V) :=
  ParamWidget.getParameters V Q of_int of_bool float_one of_list
    stripIterValue_text snipWidthSpin_value stripWidthSpin_value
    smoothingFlagCheck_isChecked smoothingSpin_value anchorsFlagCheck_isChecked
    anchorSpin_value.

Let perform : ParamWidget.call_t V -> form -> form :=
  ParamWidget.perform V Q eq_str percent_s is_None py_int py_bool iterate of_str
    stripWidthSpin_setEnabled stripIterValue_setEnabled snipWidthSpin_setEnabled
    snipWidthSpin_setValue stripWidthSpin_setValue stripIterValue_setText
    smoothingSpin_setValue anchorsFlagCheck_setChecked anchorSpin_setValue.

Let known : form -> Prop :=
  fun self => ParamWidget.known_algorithm V Q eq_str self = true.

(** A key of the dictionary with a body that never returns. *)
Lemma when_in_never_returns (ddict : string -> option V) (key : string) (v : V)
      (body : V -> M form unit) :
  ddict key = Some v -> never_returns (body v) ->
  never_returns (ParamWidget.when_in V Q ddict key body).
Proof. intros E H. unfold ParamWidget.when_in. now rewrite E. Qed.

Lemma set_parameters_smoothingflag (ddict : string -> option V) (v : V) :
  ddict "smoothingflag" = Some v -> never_returns (setParameters ddict).
Proof.
  intros E. unfold setParameters, ParamWidget.setParameters.
  do 4 (apply never_returns_then; intros _).
  apply never_returns_first.
  apply (when_in_never_returns ddict "smoothingflag" v); [exact E|].
  apply never_returns_raise.
Qed.

Lemma get_parameters_smoothingflag (self self' : form) (d : string -> option V) :
  getParameters self = (self', Returns d) ->
  exists v, d "smoothingflag" = Some v.
Proof.
  unfold getParameters, ParamWidget.getParameters, bind, ask, lift, ret.
  destruct (negb _); [destruct (int_of_str _)|];
    intros H; inversion H; subst; now eexists.
Qed.

(** A call into Qt does not touch [algorithm]. *)
Lemma keeps_qt_call (P : V -> Prop) (f : Q -> outcome Q) :
  keeps (fun self : form => P (ParamWidget.algorithm V Q self))
        (ParamWidget.qt_call V Q f).
Proof.
  apply keeps_call. intros s s' Ps. destruct (f _); intros H; inversion H.
  exact Ps.
Qed.

Lemma keeps_when_in (P : form -> Prop) (ddict : string -> option V)
      (key : string) (body : V -> M form unit) :
  (forall v, keeps P (body v)) ->
  keeps P (ParamWidget.when_in V Q ddict key body).
Proof.
  intros H. unfold ParamWidget.when_in.
  destruct (ddict key); [apply H | apply keeps_ret].
Qed.

Lemma keeps_reset_anchors (P : V -> Prop) (count i : nat) :
  keeps (fun self : form => P (ParamWidget.algorithm V Q self))
        (ParamWidget.reset_anchors V Q anchorSpin_setValue i count).
Proof.
  revert i; induction count as [|count IH]; intros i; cbn [ParamWidget.reset_anchors].
  - apply keeps_ret.
  - apply keeps_bind; [apply keeps_qt_call | intros _; apply IH].
Qed.

Lemma keeps_set_anchors (P : V -> Prop) (l : list V) (i : nat) :
  keeps (fun self : form => P (ParamWidget.algorithm V Q self))
        (ParamWidget.set_anchors V Q py_int anchorSpin_setValue i l).
Proof.
  revert i; induction l as [|x l IH]; intros i; cbn [ParamWidget.set_anchors].
  - apply keeps_ret.
  - apply keeps_bind; [destruct (Nat.ltb _ _); [apply keeps_ret | apply keeps_raise]|].
    intros _. apply keeps_bind; [apply keeps_lift|]. intros n.
    apply keeps_bind; [apply keeps_qt_call | intros _; apply IH].
Qed.

Lemma keeps_setAlgorithm (v : V) : keeps known (_setAlgorithm v).
Proof.
  unfold _setAlgorithm, ParamWidget._setAlgorithm.
  destruct (eq_str v "strip" || eq_str v "snip") eqn:E; cbn [negb].
  - apply keeps_bind.
    + apply keeps_modify. intros s _. exact E.
    + intros _. repeat (apply keeps_bind; [|intros _]);
        apply (keeps_qt_call (fun a => eq_str a "strip" || eq_str a "snip" = true)).
  - apply keeps_bind; [apply keeps_lift | intros _; apply keeps_raise].
Qed.

Lemma keeps_setParameters (ddict : string -> option V) :
  keeps known (setParameters ddict).
Proof.
  unfold setParameters, ParamWidget.setParameters.
  apply keeps_bind; [apply keeps_when_in; intros v; apply keeps_setAlgorithm|].
  intros _.
  pose (P := fun a : V => eq_str a "strip" || eq_str a "snip" = true).
  change known with (fun self : form => P (ParamWidget.algorithm V Q self)).
  repeat (apply keeps_bind; [apply keeps_when_in; intros v|intros _]);
    try (apply keeps_bind; [apply keeps_lift | intros ?; apply keeps_qt_call]);
    try apply keeps_raise.
  apply keeps_when_in; intros v.
  apply keeps_bind.
  - destruct (is_None v || eq_str v "None"); [apply keeps_ret | apply keeps_lift].
  - intros l. apply keeps_bind; [apply keeps_reset_anchors|].
    intros _. apply keeps_set_anchors.
Qed.

Lemma keeps_perform (c : ParamWidget.call_t V) (self : form) :
  known self -> known (perform c self).
Proof.
  destruct c as [i|v|d]; cbn.
  - apply keeps_setAlgorithm.
  - apply keeps_setAlgorithm.
  - apply keeps_setParameters.
Qed.

Hypothesis anchorSpin_setValue_returns :
  forall i n q, exists q', anchorSpin_setValue i n q = Returns q'.



End FormProofs.

Section FormProperties.

Variable V : Type.
Variable Q : Type.
Variable eq_str : V -> string -> bool.
Variable percent_s : V -> outcome string.
Variable is_None : V -> bool.
Variable py_int : V -> outcome Z.
Variable py_bool : V -> outcome bool.
Variable iterate : V -> outcome (list V).
Variable of_str : string -> V.
Variable of_int : Z -> V.
Variable of_bool : bool -> V.
Variable float_one : V.
Variable of_list : list V -> V.
Variable stripWidthSpin_setEnabled : bool -> Q -> outcome Q.
Variable stripIterValue_setEnabled : bool -> Q -> outcome Q.
Variable snipWidthSpin_setEnabled : bool -> Q -> outcome Q.
Variable snipWidthSpin_setValue : Z -> Q -> outcome Q.
Variable stripWidthSpin_setValue : Z -> Q -> outcome Q.
Variable stripIterValue_setText : string -> Q -> outcome Q.
Variable smoothingSpin_setValue : Z -> Q -> outcome Q.
Variable anchorsFlagCheck_setChecked : bool -> Q -> outcome Q.
Variable anchorSpin_setValue : nat -> Z -> Q -> outcome Q.
Variable stripIterValue_text : Q -> string.
Variable snipWidthSpin_value : Q -> Z.
Variable stripWidthSpin_value : Q -> Z.
Variable smoothingFlagCheck_isChecked : Q -> bool.
Variable smoothingSpin_value : Q -> Z.
Variable anchorsFlagCheck_isChecked : Q -> bool.
Variable anchorSpin_value : nat -> Q -> Z.

#[local] Abbreviation setParameters :=
  (ParamWidget.setParameters V Q eq_str percent_s is_None py_int py_bool iterate
     stripWidthSpin_setEnabled stripIterValue_setEnabled snipWidthSpin_setEnabled
     snipWidthSpin_setValue stripWidthSpin_setValue stripIterValue_setText
     smoothingSpin_setValue anchorsFlagCheck_setChecked anchorSpin_setValue).

#[local] Abbreviation getParameters :=
  (ParamWidget.getParameters V Q of_int of_bool float_one of_list
     stripIterValue_text snipWidthSpin_value stripWidthSpin_value
     smoothingFlagCheck_isChecked smoothingSpin_value anchorsFlagCheck_isChecked
     anchorSpin_value).

#[local] Abbreviation perform :=
  (ParamWidget.perform V Q eq_str percent_s is_None py_int py_bool iterate of_str
     stripWidthSpin_setEnabled stripIterValue_setEnabled snipWidthSpin_setEnabled
     snipWidthSpin_setValue stripWidthSpin_setValue stripIterValue_setText
     smoothingSpin_setValue anchorsFlagCheck_setChecked anchorSpin_setValue).

(** X21. [setParameters] never returns on a dictionary that has the key
    "smoothingflag": it raises there at the latest ([self.self] is not an
    attribute).  The dictionary that [getParameters] returns has this key,
    so that [setParameters(getParameters())] always ends in an exception. *)
Theorem set_parameters_rejects_smoothingflag :
  (forall ddict v,
      ddict "smoothingflag" = Some v -> never_returns (setParameters ddict)) /\
  (forall self self' d,
      getParameters self = (self', Returns d) -> never_returns (setParameters d)).
Proof.
  split.
  - intros ddict v E. now apply (set_parameters_smoothingflag V Q) with v.
  - intros self self' d H.
    destruct (get_parameters_smoothingflag V Q _ _ _ _ _ _ _ _ _ _ _ _ _ _ H)
      as [v E].
    now apply (set_parameters_smoothingflag V Q) with v.
Qed.

(** X22. Whatever calls of [_algorithmComboActivated], [_setAlgorithm] and
    [setParameters] are made on a form, returning or raising, its attribute
    [algorithm] stays equal to "strip" or to "snip". *)
Theorem algorithm_stays_known (calls : list (ParamWidget.call_t V))
        (self : ParamWidget.form V Q) :
  ParamWidget.known_algorithm V Q eq_str self = true ->
  ParamWidget.known_algorithm V Q eq_str
    (fold_left (fun s c => perform c s) calls self) = true.
Proof.
  revert self; induction calls as [|c calls IH]; intros self K; [exact K|].
  cbn [fold_left]. apply IH.
  now apply (keeps_perform V Q eq_str percent_s is_None py_int py_bool iterate
                           of_str).
Qed.


End FormProperties.

Lemma set_parameters_rejects_smoothingflag_witness :
  exists d,
    snd (Example.getParameters Example.strip_form) = Returns d /\
    never_returns (Example.setParameters d).
Proof.
  eexists. split; [reflexivity|].
  unfold Example.setParameters.
  eapply (proj2 (set_parameters_rejects_smoothingflag
                   Example.pyval Example.widgets Example.eq_str
                   Example.percent_s Example.is_None Example.py_int
                   Example.py_bool Example.iterate Example.PInt Example.PBool
                   Example.PFloatOne Example.PList Example.setEnabled
                   Example.setEnabled Example.setEnabled
                   Example.snipWidth_setValue Example.stripWidth_setValue
                   Example.stripIter_setText Example.smoothing_setValue
                   Example.anchorsFlag_setChecked Example.anchor_setValue
                   Example.stripIterText Example.snipWidth Example.stripWidth
                   Example.smoothingFlag Example.smoothingWidth
                   Example.anchorsFlag Example.anchor_value)
                Example.strip_form Example.strip_form).
  reflexivity.
Defined.

Lemma algorithm_stays_known_witness :
  ParamWidget.known_algorithm Example.pyval Example.widgets Example.eq_str
    (fold_left (fun s c => Example.perform c s)
       [ParamWidget.AlgorithmComboActivated Example.pyval 1;
        ParamWidget.SetAlgorithm Example.pyval (Example.PStr "median");
        ParamWidget.SetParameters Example.pyval
          (fun key => if key =? "algorithm" then Some (Example.PInt 3) else None)]
       Example.strip_form) = true.
Proof.
  unfold Example.perform.
  apply (algorithm_stays_known Example.pyval Example.widgets Example.eq_str).
  reflexivity.
Defined.


(** ** The median filter actions *)

Section ActionProofs.

Variable image : Type.
Variable legend : Type.
Variable plot : Type.
Variable getActiveImage : plot -> outcome (option legend).
Variable getData : legend -> plot -> outcome image.
Variable getLegend : legend -> plot -> outcome legend.
Variable addImage : image -> option legend -> plot -> outcome plot.
Variable disconnect : plot -> outcome plot.
Variable connect : plot -> outcome plot.
Variable popup_show : plot -> outcome plot.
Variable popup_create : plot -> outcome plot.
Variable medfilt2d : image -> Z * Z -> bool -> outcome image.

Let action : Type := MedFilt.action image legend plot.

(** No filtered image is stored. *)
Let unset (self : action) : Prop :=
  MedFilt._filteredImage image legend plot self = None.

Lemma keeps_plot_call (f : plot -> outcome plot) :
  keeps unset (MedFilt.plot_call image legend plot f).
Proof.
  apply keeps_call. intros s s' U. destruct (f _); intros H; inversion H.
  exact U.
Qed.

Lemma keeps_updateActiveImage :
  keeps unset (MedFilt._updateActiveImage image legend plot getActiveImage
                                          getData getLegend).
Proof.
  unfold MedFilt._updateActiveImage.
  apply keeps_bind; [apply keeps_ask|]. intros active.
  apply keeps_bind; [now apply keeps_modify|]. intros _.
  destruct active as [l|].
  - apply keeps_bind; [apply keeps_ask|]. intros data.
    apply keeps_bind; [now apply keeps_modify|]. intros _.
    apply keeps_bind; [apply keeps_ask|]. intros leg.
    now apply keeps_modify.
  - apply keeps_bind; [now apply keeps_modify|]. intros _.
    now apply keeps_modify.
Qed.

Lemma keeps_updateFilter (c : MedFilt.class) (kernelWidth : Z)
      (conditional : bool) :
  keeps unset (MedFilt._updateFilter image legend plot addImage disconnect
                                     connect medfilt2d c kernelWidth conditional).
Proof.
  unfold MedFilt._updateFilter.
  apply keeps_bind; [apply keeps_ask|]. intros [originalImage|];
    [|apply keeps_ret].
  apply keeps_bind; [apply keeps_plot_call|]. intros _.
  apply keeps_bind.
  - destruct c; [apply keeps_raise | apply keeps_lift | apply keeps_lift].
  - intros filteredImage. apply keeps_bind; [apply keeps_ask|]. intros leg.
    apply keeps_bind; [apply keeps_plot_call|]. intros _.
    apply keeps_plot_call.
Qed.

Lemma keeps_action_perform (c : MedFilt.class) (ev : MedFilt.call_t)
      (self : action) :
  unset self ->
  unset (MedFilt.perform image legend plot getActiveImage getData getLegend
                         addImage disconnect connect popup_show medfilt2d
                         c self ev).
Proof.
  destruct ev as [checked| |kernelWidth conditional|]; cbn [MedFilt.perform].
  - apply keeps_plot_call.
  - apply keeps_updateActiveImage.
  - apply keeps_updateFilter.
  - apply keeps_ask.
Qed.

Lemma init_unset (p : plot) :
  unset (fst (MedFilt.__init__ image legend plot getActiveImage getData
                               getLegend connect popup_create p)).
Proof.
  unfold MedFilt.__init__.
  match goal with
  | |- unset (fst (?m ?s)) => assert (K : keeps unset m)
  end.
  { apply keeps_bind; [now apply keeps_modify|]. intros _.
    apply keeps_bind; [now apply keeps_modify|]. intros _.
    apply keeps_bind; [now apply keeps_modify|]. intros _.
    apply keeps_bind; [apply keeps_plot_call|]. intros _.
    apply keeps_bind; [apply keeps_plot_call|]. intros _.
    apply keeps_updateActiveImage. }
  apply K. reflexivity.
Qed.

End ActionProofs.


(** X24. [getFilteredImage()] returns [None] on an action of any of the
    three classes, after its construction and after any calls of
    [_triggered], [_updateActiveImage], [_updateFilter] and
    [getFilteredImage], returning or raising: [_updateFilter] hands the
    filtered image to the plot and does not store it. *)
Theorem filtered_image_is_never_stored
        (image legend plot : Type)
        (getActiveImage : plot -> outcome (option legend))
        (getData : legend -> plot -> outcome image)
        (getLegend : legend -> plot -> outcome legend)
        (addImage : image -> option legend -> plot -> outcome plot)
        (disconnect connect popup_show popup_create : plot -> outcome plot)
        (medfilt2d : image -> Z * Z -> bool -> outcome image)
        (c : MedFilt.class) (p : plot) (calls : list MedFilt.call_t) :
  let self :=
    fold_left
      (MedFilt.perform image legend plot getActiveImage getData getLegend
                       addImage disconnect connect popup_show medfilt2d c)
      calls
      (fst (MedFilt.__init__ image legend plot getActiveImage getData
                             getLegend connect popup_create p)) in
  snd (MedFilt.getFilteredImage image legend plot self) = Returns None.
Proof.
  cbv zeta. unfold MedFilt.getFilteredImage, ask. cbn [snd]. f_equal.
  pose proof (init_unset image legend plot getActiveImage getData getLegend
                         connect popup_create p) as U.
  revert U.
  generalize (fst (MedFilt.__init__ image legend plot getActiveImage getData
                                    getLegend connect popup_create p)).
  induction calls as [|ev calls IH]; intros self U; [exact U|].
  cbn [fold_left]. apply IH.
  now apply keeps_action_perform.
Qed.
